(** * Las Vegas Reconstruction: tetrahedra tables and the point cloud manager

    A shallow embedding of
    - [TetraederTable.hpp] (namespace [lvr]): the static lookup tables of the
      marching-tetrahedra surface extraction, and
    - [FlannPointCloudManager.hpp] (namespace [lssr]): the interface of the
      point cloud manager,
    with the properties the design document states about them. *)

From Stdlib Require Import ZArith List Bool Lia.
From Stdlib Require Import QArith Qabs Qreals Reals Lra.
From Stdlib Require Import Sorted Permutation.
Import ListNotations.

(* ================================================================= *)
(** ** The tables of [TetraederTable.hpp] *)

Module Tables.

Local Open Scope Z_scope.

(** A C array [int t[R][C]] is a list of rows; [t[i][j]] is [entry t i j].
    The tables are only read at indices inside their bounds. *)
Definition table := list (list Z).

Definition row (t : table) (i : Z) : list Z := nth (Z.to_nat i) t [].

Definition entry (t : table) (i j : Z) : Z := nth (Z.to_nat j) (row t i) 0.

Definition TetraederTable : table :=
  [ [-1; -1; -1; -1; -1; -1; -1];   (* 0 *)
    [ 0;  3;  2; -1; -1; -1; -1];   (* 1 *)
    [ 0;  1;  4; -1; -1; -1; -1];   (* 2 *)
    [ 2;  1;  3;  3;  1;  4; -1];   (* 3 *)
    [ 3;  4;  5; -1; -1; -1; -1];   (* 4 *)
    [ 2;  0;  5;  5;  0;  4; -1];   (* 5 *)
    [ 3;  0;  1;  3;  1;  5; -1];   (* 6 *)
    [ 2;  1;  5; -1; -1; -1; -1];   (* 7 *)
    [ 2;  5;  1; -1; -1; -1; -1];   (* 8 *)
    [ 3;  1;  0;  3;  5;  1; -1];   (* 9 *)
    [ 2;  5;  0;  5;  4;  0; -1];   (* 10 *)
    [ 3;  5;  4; -1; -1; -1; -1];   (* 11 *)
    [ 2;  3;  1;  3;  4;  1; -1];   (* 12 *)
    [ 0;  4;  1; -1; -1; -1; -1];   (* 13 *)
    [ 0;  2;  3; -1; -1; -1; -1];   (* 14 *)
    [-1; -1; -1; -1; -1; -1; -1]    (* 15 *)
  ].

Definition TetraederIntersectionTable : table :=
  [ [ 0; 12;  8;  3; 16; 14];   (* 0 *)
    [16; 12; 14;  2;  1; 18];   (* 1 *)
    [18; 13;  7; 14;  2; 10];   (* 2 *)
    [ 9;  4; 12;  1; 15; 18];   (* 3 *)
    [ 4; 17;  7; 18; 15; 13];   (* 4 *)
    [15; 17; 13; 11;  5;  6]    (* 5 *)
  ].

Definition TetraederDefinitionTable : table :=
  [ [0; 1; 3; 4];   (* 0 *)
    [3; 1; 2; 4];   (* 1 *)
    [4; 2; 3; 7];   (* 2 *)
    [1; 5; 2; 4];   (* 3 *)
    [4; 5; 2; 7];   (* 4 *)
    [2; 5; 6; 7]    (* 5 *)
  ].

Definition TetraederNeighborTable : table :=
  [ [12; 10;  9];   (* 0 *)
    [22; 12; 21];   (* 1 *)
    [16; 12; 15];   (* 2 *)
    [ 4;  3; 12];   (* 3 *)
    [14; 10; 11];   (* 4 *)
    [23; 22; 14];   (* 5 *)
    [14; 16; 17];   (* 6 *)
    [ 4;  5; 14];   (* 7 *)
    [ 4;  1; 10];   (* 8 *)
    [22; 19; 10];   (* 9 *)
    [ 4;  7; 16];   (* 10 *)
    [22; 25; 16];   (* 11 *)
    [10; -1; -1];   (* 12 *)
    [16; -1; -1];   (* 13 *)
    [ 4; -1; -1];   (* 14 *)
    [22; -1; -1];   (* 15 *)
    [12; -1; -1];   (* 16 *)
    [14; -1; -1];   (* 17 *)
    [-1; -1; -1]    (* 18 *)
  ].

Definition TetraederVertexNBTable : table :=
  [ [ 4;  2;  6];   (* 0 *)
    [ 3;  5;  7];   (* 1 *)
    [ 0;  6;  4];   (* 2 *)
    [ 1;  5;  7];   (* 3 *)
    [ 0;  6;  2];   (* 4 *)
    [ 3;  7;  1];   (* 5 *)
    [ 2;  4;  0];   (* 6 *)
    [ 5;  1;  3];   (* 7 *)
    [ 9; 11; 10];   (* 8 *)
    [ 8; 10; 11];   (* 9 *)
    [11;  9;  8];   (* 10 *)
    [10;  8;  9];   (* 11 *)
    [13; -1; -1];   (* 12 *)
    [12; -1; -1];   (* 13 *)
    [15; -1; -1];   (* 14 *)
    [14; -1; -1];   (* 15 *)
    [17; -1; -1];   (* 16 *)
    [16; -1; -1];   (* 17 *)
    [-1; -1; -1]    (* 18 *)
  ].

(** *** Reading a row *)

(** The configuration index of a tetrahedron is the 4-bit sign pattern of
    its corners; [popcount4 c] counts the bits that are set. *)
Definition bit (c i : Z) : Z := if Z.testbit c i then 1 else 0.

Definition popcount4 (c : Z) : Z := bit c 0 + bit c 1 + bit c 2 + bit c 3.

(** The edge references of a row: its entries up to the first [-1]. *)
Fixpoint edge_refs (r : list Z) : list Z :=
  match r with
  | [] => []
  | e :: r' => if e =? -1 then [] else e :: edge_refs r'
  end.

(** What follows the edge references (the padding). *)
Fixpoint padding (r : list Z) : list Z :=
  match r with
  | [] => []
  | e :: r' => if e =? -1 then r else padding r'
  end.

(** The triangles of a row: its edge references, three at a time. *)
Fixpoint group3 (fuel : nat) (l : list Z) : list (list Z) :=
  match fuel, l with
  | S f, a :: b :: c :: l' => [a; b; c] :: group3 f l'
  | _, _ => []
  end.

Definition triangles (r : list Z) : list (list Z) :=
  group3 (length r) (edge_refs r).

(** A row encodes exactly [k] triangles: [3 * k] edge references in the
    range 0..5, then [-1] in every remaining slot of the 7. *)
Definition encodes_triangles (k : nat) (r : list Z) : Prop :=
  exists refs : list Z,
    r = refs ++ repeat (-1) (7 - 3 * k) /\
    length refs = (3 * k)%nat /\
    Forall (fun e => 0 <= e <= 5) refs.

Definition is_edge_ref (e : Z) : bool := (0 <=? e) && (e <=? 5).

Definition encodes_trianglesb (k : nat) (r : list Z) : bool :=
  (length r =? 7)%nat &&
  (length (edge_refs r) =? 3 * k)%nat &&
  forallb is_edge_ref (edge_refs r) &&
  forallb (Z.eqb (-1)) (padding r).

(** Two triangles with the same three edges, whatever the order. *)
Definition same_edges (t u : list Z) : Prop :=
  forall e : Z, In e t <-> In e u.

(** Two triangle lists that are equal as sets of edge sets. *)
Definition same_triangle_set (T U : list (list Z)) : Prop :=
  (forall t, In t T -> exists u, In u U /\ same_edges t u) /\
  (forall u, In u U -> exists t, In t T /\ same_edges t u).

Definition subsetb (t u : list Z) : bool :=
  forallb (fun e => existsb (Z.eqb e) u) t.

Definition same_edgesb (t u : list Z) : bool := subsetb t u && subsetb u t.

Definition same_triangle_setb (T U : list (list Z)) : bool :=
  forallb (fun t => existsb (same_edgesb t) U) T &&
  forallb (fun u => existsb (fun t => same_edgesb t u) T) U.

(** The non-negative entries of row [i]: the neighbours it lists. *)
Definition neighbours (t : table) (i : Z) : list Z :=
  filter (fun e => 0 <=? e) (row t i).

(** The configuration indices, and the indices of a 19-row table. *)
Definition configs : list Z := map Z.of_nat (seq 0 16).

Definition indices (n : nat) : list Z := map Z.of_nat (seq 0 n).

(** A check of every position [(i, j)] of a table of the given size. *)
Definition all_entries (rows cols : nat) (P : Z -> Z -> bool) : bool :=
  forallb (fun i => forallb (fun j => P i j) (indices cols)) (indices rows).

(** The padding check at position [(i, j)]: if the entry is [-1], so
    are the entries after it. *)
Definition padded_from (t : table) (cols : nat) (i j : Z) : bool :=
  negb (entry t i j =? -1) ||
  forallb (fun k => (k <? j) || (entry t i k =? -1)) (indices cols).

End Tables.

(* ================================================================= *)
(** ** The cube cell and its six tetrahedra *)

Module Cube.

Import Tables.
Local Open Scope R_scope.

Definition point : Type := R * R * R.

(** The corners of the axis-aligned unit cube in the numbering of the
    marching-cubes cell: corners 0, 1, 2, 3 run around the face [z = 0],
    corners 4, 5, 6, 7 lie above them.  [TetraederTable.hpp] only holds
    corner indices; the tables are read against this numbering, which the
    theorems below take as a parameter [corner] constrained by [box_layout]. *)
Definition box_corner (i : Z) : point :=
  match i with
  | 0%Z => (0, 0, 0)
  | 1%Z => (1, 0, 0)
  | 2%Z => (1, 1, 0)
  | 3%Z => (0, 1, 0)
  | 4%Z => (0, 0, 1)
  | 5%Z => (1, 0, 1)
  | 6%Z => (1, 1, 1)
  | 7%Z => (0, 1, 1)
  | _ => (0, 0, 0)
  end.

Definition box_layout (corner : Z -> point) : Prop :=
  forall i : Z, (0 <= i <= 7)%Z -> corner i = box_corner i.

(** The numbering that counts the corners in binary (bit 0 = x, bit 1 = y,
    bit 2 = z); it differs from [box_corner] at corners 2, 3, 6 and 7. *)
Definition binary_corner (i : Z) : point :=
  (IZR (bit i 0), IZR (bit i 1), IZR (bit i 2)).

Definition in_cube (p : point) : Prop :=
  let '(x, y, z) := p in
  0 <= x <= 1 /\ 0 <= y <= 1 /\ 0 <= z <= 1.

(** Weighted sums of points. *)
Definition scale (w : R) (p : point) : point :=
  let '(x, y, z) := p in (w * x, w * y, w * z).

Definition plus (p q : point) : point :=
  let '(x, y, z) := p in let '(x', y', z') := q in (x + x', y + y', z + z').

Fixpoint total (ws : list R) : R :=
  match ws with
  | [] => 0
  | w :: ws' => w + total ws'
  end.

Fixpoint combination (ws : list R) (vs : list point) : point :=
  match ws, vs with
  | w :: ws', v :: vs' => plus (scale w v) (combination ws' vs')
  | _, _ => (0, 0, 0)
  end.

(** [p] is a convex combination of the points [vs] with weights [ws]. *)
Definition weights_of (ws : list R) (vs : list point) (p : point) : Prop :=
  length ws = length vs /\ total ws = 1 /\ combination ws vs = p.

(** The solid spanned by [vs]: their convex hull. *)
Definition in_hull (vs : list point) (p : point) : Prop :=
  exists ws, Forall (fun w => 0 <= w) ws /\ weights_of ws vs p.

(** Its interior, for a tetrahedron that is not flat: every barycentric
    weight is strictly positive. *)
Definition in_interior (vs : list point) (p : point) : Prop :=
  exists ws, Forall (fun w => 0 < w) ws /\ weights_of ws vs p.

(** Tetrahedron [t] of the cube: the corners [TetraederDefinitionTable[t]]. *)
Definition tetra_corners (t : Z) : list Z := row TetraederDefinitionTable t.

Definition tetra (corner : Z -> point) (t : Z) : list point :=
  map corner (tetra_corners t).

(** The corners two tetrahedra have in common. *)
Definition common_corners (s t : Z) : list Z :=
  filter (fun c => existsb (Z.eqb c) (tetra_corners t)) (tetra_corners s).

(** The weights a point of tetrahedron [s] has at the corners shared with
    tetrahedron [t]. *)
Definition shared_weights (s t : Z) (ws : list R) : list R :=
  map snd
    (filter (fun cw => existsb (Z.eqb (fst cw)) (tetra_corners t))
            (combine (tetra_corners s) ws)).

(** The volume of a tetrahedron: a sixth of the absolute determinant of
    its edge vectors at the first corner. *)
Definition minus (p q : point) : point :=
  let '(x, y, z) := p in let '(x', y', z') := q in (x - x', y - y', z - z').

Definition det3 (u v w : point) : R :=
  let '(ux, uy, uz) := u in
  let '(vx, vy, vz) := v in
  let '(wx, wy, wz) := w in
  ux * (vy * wz - vz * wy) - uy * (vx * wz - vz * wx)
  + uz * (vx * wy - vy * wx).

Definition volume (vs : list point) : R :=
  match vs with
  | [a; b; c; d] => Rabs (det3 (minus b a) (minus c a) (minus d a)) / 6
  | _ => 0
  end.

End Cube.

(* ================================================================= *)
(** ** The point cloud manager of [FlannPointCloudManager.hpp] *)

Module Manager.

Local Open Scope Q_scope.

(** [VertexT] and [NormalT]: three coordinates; every [float] value is a
    rational, and the operations below are the exact ones. *)
Record VertexT : Type := mkVertex { vx : Q; vy : Q; vz : Q }.

Definition NormalT : Type := VertexT.

(** [struct Plane]: the fit descriptor [a, b, c], the normal [n] and the
    anchor point [p]. *)
Record Plane : Type := mkPlane { a : Q; b : Q; c : Q; n : NormalT; p : VertexT }.

(** The state of a manager: the members of [PointCloudManager] the header
    refers to ([m_points], [m_normals], [m_kn], [m_ki], [m_kd]) and
    [m_centroid].  The point count [n] is the length of [m_points]; a null
    normal array is [None]. *)
Record FlannPointCloudManager : Type := mkManager {
  m_points : list VertexT;
  m_normals : option (list NormalT);
  m_kn : Z;
  m_ki : Z;
  m_kd : Z;
  m_centroid : VertexT
}.

Definition numPoints (m : FlannPointCloudManager) : nat := length (m_points m).

(** [getkClosestNormals]: the body in the header is empty.  The method is
    not [const] and takes [nb] by reference, so it is a transition on the
    manager and on [nb]; this is the identity. *)
Definition getkClosestNormals (m : FlannPointCloudManager) (q : VertexT)
    (k : nat) (nb : list NormalT) : FlannPointCloudManager * list NormalT :=
  (m, nb).

(** *** Vector operations *)

Definition origin : VertexT := mkVertex 0 0 0.

Definition vsub (u v : VertexT) : VertexT :=
  mkVertex (vx u - vx v) (vy u - vy v) (vz u - vz v).

Definition vadd (u v : VertexT) : VertexT :=
  mkVertex (vx u + vx v) (vy u + vy v) (vz u + vz v).

Definition vscale (s : Q) (v : VertexT) : VertexT :=
  mkVertex (s * vx v) (s * vy v) (s * vz v).

Definition vdot (u v : VertexT) : Q := vx u * vx v + vy u * vy v + vz u * vz v.

Definition sqdist (u v : VertexT) : Q := vdot (vsub u v) (vsub u v).

(** The Euclidean distance, a real number. *)
Definition euclid (u v : VertexT) : R := sqrt (Q2R (sqdist u v)).

(** [fromID]: the vertex of a point id. *)
Definition fromID (m : FlannPointCloudManager) (i : nat) : VertexT :=
  nth i (m_points m) origin.

(** *** The members declared in the header and defined in
    [FlannPointCloudManager.tcc] *)

(** Modelled from the spec: the numeric capabilities the spec leaves to the
    plane fitter and to the vector type, which are missing from the header:
    the least-squares fit of [calcPlane] (it may fail on a degenerate
    neighbourhood), re-normalisation to unit length, the length of a vector,
    and the bounding-box ratio of [boundingBoxOK] (a tunable constant). *)
Class Numerics : Type := mkNumerics {
  leastSquares : VertexT -> list VertexT -> option Plane;
  normalized : VertexT -> NormalT;
  vlength : VertexT -> Q;
  boxRatio : Q
}.

(** Modelled from the spec: the spatial index, missing from the header, as
    the capability "given a query point and k, return its k nearest
    neighbours": the point ids ordered by distance to the query, ties in
    index order, cut after [k]. *)
Fixpoint insert_by_distance (q : VertexT) (x : nat * VertexT)
    (l : list (nat * VertexT)) : list (nat * VertexT) :=
  match l with
  | [] => [x]
  | y :: l' =>
      if Qle_bool (sqdist q (snd x)) (sqdist q (snd y))
      then x :: l
      else y :: insert_by_distance q x l'
  end.

Fixpoint sort_by_distance (q : VertexT) (l : list (nat * VertexT))
    : list (nat * VertexT) :=
  match l with
  | [] => []
  | x :: l' => insert_by_distance q x (sort_by_distance q l')
  end.

Definition indexed (pts : list VertexT) : list (nat * VertexT) :=
  combine (seq 0 (length pts)) pts.

Definition ksearch (pts : list VertexT) (q : VertexT) (k : nat) : list nat :=
  map fst (firstn k (sort_by_distance q (indexed pts))).

(** Modelled from the spec: [getkClosestVertices], whose body is missing:
    "returns up to k nearest points to query by Euclidean distance in the
    underlying index, fewer if n < k".  The result is the new content of
    [nb]. *)
Definition getkClosestVertices (m : FlannPointCloudManager) (v : VertexT)
    (k : nat) (nb : list VertexT) : list VertexT :=
  map (fromID m) (ksearch (m_points m) v k).

(** Modelled from the spec: [boundingBoxOK], whose body is missing: the box
    is rejected "if one dimension's extent exceeds a fixed multiple of
    another". *)
Definition boundingBoxOK {N : Numerics} (dx dy dz : Q) : bool :=
  Qle_bool dx (boxRatio * dy) && Qle_bool dx (boxRatio * dz) &&
  Qle_bool dy (boxRatio * dx) && Qle_bool dy (boxRatio * dz) &&
  Qle_bool dz (boxRatio * dx) && Qle_bool dz (boxRatio * dy).

Definition Qmax (x y : Q) : Q := if Qle_bool x y then y else x.

Definition Qmin (x y : Q) : Q := if Qle_bool x y then x else y.

(** The side length of the bounding box of [l] along the coordinate [f]. *)
Definition extent (f : VertexT -> Q) (l : list VertexT) : Q :=
  match l with
  | [] => 0
  | v :: l' =>
      fold_left Qmax (map f l') (f v) - fold_left Qmin (map f l') (f v)
  end.

(** Modelled from the spec: [calcPlane], whose body is missing (section 4.2,
    steps 1 to 3): the [k]-neighbourhood [id] must be complete and its
    bounding box well formed, then the plane is the least-squares fit. *)
Definition calcPlane {N : Numerics} (m : FlannPointCloudManager)
    (queryPoint : VertexT) (k : Z) (id : list nat) : option Plane :=
  let nb := map (fromID m) id in
  if (Z.of_nat (length id) <? k)%Z then None
  else if boundingBoxOK (extent vx nb) (extent vy nb) (extent vz nb)
       then leastSquares queryPoint nb
       else None.

(** The tangent plane of the point with id [i]: fitted to its [m_kn]
    nearest points. *)
Definition tangentPlane {N : Numerics} (m : FlannPointCloudManager)
    (i : nat) : option Plane :=
  let v := fromID m i in
  calcPlane m v (m_kn m) (ksearch (m_points m) v (Z.to_nat (m_kn m))).

(** The first element of [l] on which [f] succeeds. *)
Fixpoint first_some {A B : Type} (f : A -> option B) (l : list A) : option B :=
  match l with
  | [] => None
  | x :: l' => match f x with Some y => Some y | None => first_some f l' end
  end.

(** Modelled from the spec: [distance], whose body is missing: "projects
    point onto the nearest locally-fitted tangent plane; euclideanDistance
    is plain distance to that plane's anchor; signedProjectedDistance is
    the plane-normal-signed offset.  Fails if no neighbor plane can be
    fitted".  The [m_kd] nearest points are tried in order of distance;
    [None] is the failure, [Some (projectedDistance, euklideanDistance)]
    the two output parameters. *)
Definition distance {N : Numerics} (m : FlannPointCloudManager) (v : VertexT)
    : option (Q * Q) :=
  match first_some (tangentPlane m)
          (ksearch (m_points m) v (Z.to_nat (m_kd m))) with
  | None => None
  | Some pl => Some (vdot (vsub v (p pl)) (n pl), vlength (vsub v (p pl)))
  end.

(** Modelled from the spec: section 4.2, steps 4 and 5: the fitted normal is
    flipped when it points against the direction from the centroid to the
    point; a point without a plane gets the centroid-pointing normal. *)
Definition orient (m : FlannPointCloudManager) (v : VertexT) (nrm : NormalT)
    : NormalT :=
  if Qle_bool 0 (vdot nrm (vsub v (m_centroid m))) then nrm
  else vscale (-1) nrm.

Definition initialNormal {N : Numerics} (m : FlannPointCloudManager) (i : nat)
    : NormalT :=
  match tangentPlane m i with
  | Some pl => orient m (fromID m i) (n pl)
  | None => normalized (vsub (fromID m i) (m_centroid m))
  end.

Definition pointIds (m : FlannPointCloudManager) : list nat :=
  seq 0 (numPoints m).

(** Modelled from the spec: [interpolateSurfaceNormals], whose body is
    missing (section 4.3): the initial normals of the [m_ki] nearest points
    are averaged and the mean is re-normalised. *)
Definition interpolateSurfaceNormals {N : Numerics} (m : FlannPointCloudManager)
    (initial : list NormalT) : list NormalT :=
  map (fun i =>
         let ids := ksearch (m_points m) (fromID m i) (Z.to_nat (m_ki m)) in
         let s := fold_left vadd (map (fun j => nth j initial origin) ids) origin in
         normalized (vscale (/ inject_Z (Z.of_nat (length ids))) s))
      (pointIds m).

Definition setNormals (m : FlannPointCloudManager) (ns : option (list NormalT))
    : FlannPointCloudManager :=
  mkManager (m_points m) ns (m_kn m) (m_ki m) (m_kd m) (m_centroid m).

(** Modelled from the spec: [calcNormals], whose body is missing: "computes
    initial normals for every point (4.2), then interpolates (4.3)", in two
    phases, and stores the result in [m_normals]. *)
Definition calcNormals {N : Numerics} (m : FlannPointCloudManager)
    : FlannPointCloudManager :=
  let initial := map (initialNormal m) (pointIds m) in
  setNormals m (Some (interpolateSurfaceNormals m initial)).

(** The order of the search: [a] is at most as far from [q] as [b]. *)
Definition nearer (q : VertexT) (a b : nat * VertexT) : Prop :=
  sqdist q (snd a) <= sqdist q (snd b).

(** The data [calcNormals] and the queries read: everything but the stored
    normals. *)
Definition same_data (m m' : FlannPointCloudManager) : Prop :=
  m_points m = m_points m' /\ m_kn m = m_kn m' /\ m_ki m = m_ki m' /\
  m_kd m = m_kd m' /\ m_centroid m = m_centroid m'.

(** A plane fitter for test data: the plane through the first neighbour
    with normal [(0, 0, 1)]; it fails on an empty neighbourhood. *)
Definition flatNumerics : Numerics :=
  mkNumerics
    (fun _ nb => match nb with
                 | [] => None
                 | v :: _ => Some (mkPlane 0 0 (vz v) (mkVertex 0 0 1) v)
                 end)
    (fun v => v)
    (fun v => Qabs (vx v) + Qabs (vy v) + Qabs (vz v))
    50.

(** Test data: the corners of the unit square in the plane [z = 0] and an
    apex above its centre. *)
Definition pyramidPoints : list VertexT :=
  [ mkVertex 0 0 0; mkVertex 1 0 0; mkVertex 1 1 0; mkVertex 0 1 0;
    mkVertex (1 # 2) (1 # 2) 1 ].

Definition pyramidManager (kn : Z) : FlannPointCloudManager :=
  mkManager pyramidPoints None kn 3 2 (mkVertex (1 # 2) (1 # 2) (1 # 5)).

End Manager.

(* ================================================================= *)
(** ** How the tables fit together *)

Module Cells.

Import Tables.
Local Open Scope Z_scope.

(** An unordered pair: [p] is [q] or [q] with its components exchanged. *)
Definition same_pair {A : Type} (p q : A * A) : Prop :=
  p = q \/ p = (snd q, fst q).

Definition zpair_eqb (p q : Z * Z) : bool :=
  (fst p =? fst q) && (snd p =? snd q).

Definition same_zpairb (p q : Z * Z) : bool :=
  zpair_eqb p q || zpair_eqb p (snd q, fst q).

(** The two corners (positions 0..3 in a row of
    [TetraederDefinitionTable]) that the local edge [e] of a tetrahedron
    joins.  The header does not spell them out; the rows of
    [TetraederTable] admit no other reading, as is proved below. *)
Definition edge_ends (e : Z) : Z * Z :=
  match e with
  | 0 => (0, 1)
  | 1 => (1, 3)
  | 2 => (0, 3)
  | 3 => (0, 2)
  | 4 => (1, 2)
  | 5 => (2, 3)
  | _ => (0, 0)
  end.

(** In configuration [c] the surface cuts an edge when the sign bits of
    its two ends differ. *)
Definition cut (c : Z) (ends : Z * Z) : Prop :=
  bit c (fst ends) <> bit c (snd ends).

Definition cutb (c : Z) (ends : Z * Z) : bool :=
  negb (bit c (fst ends) =? bit c (snd ends)).

(** Row [c] of [TetraederTable] refers to the local edge [e]. *)
Definition referencesb (c e : Z) : bool :=
  existsb (Z.eqb e) (edge_refs (row TetraederTable c)).

(** [ends] cuts edge [e] in exactly the configurations whose row refers
    to [e]. *)
Definition agreesb (ends : Z * Z) (e : Z) : bool :=
  forallb (fun c => Bool.eqb (referencesb c e) (cutb c ends)) configs.

(** A triangle listed in the opposite sense of rotation. *)
Definition reverse_winding (t : list Z) : list Z :=
  match t with
  | [a; b; c] => [a; c; b]
  | _ => t
  end.


(** The cube corners that local edge [e] of tetrahedron [t] joins. *)
Definition corner_pair (t e : Z) : Z * Z :=
  (entry TetraederDefinitionTable t (fst (edge_ends e)),
   entry TetraederDefinitionTable t (snd (edge_ends e))).

(** The position of the entry [-1] or of the neighbour in the two 19-row
    tables is the same: row [i], column [j] of [TetraederNeighborTable]
    names a cell, the same place of [TetraederVertexNBTable] the
    intersection in that cell. *)
Definition neighbour_at (i j : Z) : Z * Z :=
  (entry TetraederNeighborTable i j, entry TetraederVertexNBTable i j).

(** The cube corners on the integer lattice, in the numbering of
    [Cube.box_corner]. *)
Definition lattice_corner (i : Z) : Z * Z * Z :=
  match i with
  | 0 => (0, 0, 0)
  | 1 => (1, 0, 0)
  | 2 => (1, 1, 0)
  | 3 => (0, 1, 0)
  | 4 => (0, 0, 1)
  | 5 => (1, 0, 1)
  | 6 => (1, 1, 1)
  | 7 => (0, 1, 1)
  | _ => (0, 0, 0)
  end.

(** The 27 cells around a cell, numbered [9 (dx + 1) + 3 (dy + 1) + (dz + 1)];
    the cell itself is number 13.  This is the numbering under which the
    neighbour tables name coinciding edges, as is proved below. *)
Definition cell_offset (n : Z) : Z * Z * Z :=
  (n / 9 - 1, (n / 3) mod 3 - 1, n mod 3 - 1).

Definition shift (d p : Z * Z * Z) : Z * Z * Z :=
  let '(dx, dy, dz) := d in
  let '(x, y, z) := p in (x + dx, y + dy, z + dz).

Definition point_eqb (p q : Z * Z * Z) : bool :=
  let '(x, y, z) := p in
  let '(x', y', z') := q in (x =? x') && (y =? y') && (z =? z').

(** The lattice points that local edge [e] of tetrahedron [t] joins, in
    the cell at offset [d]. *)
Definition edge_points (d : Z * Z * Z) (t e : Z) : (Z * Z * Z) * (Z * Z * Z) :=
  (shift d (lattice_corner (fst (corner_pair t e))),
   shift d (lattice_corner (snd (corner_pair t e)))).

(** Edge [e] of tetrahedron [t] of this cell is edge [e'] of tetrahedron
    [t'] of cell [n]. *)
Definition coincide (t e t' e' n : Z) : Prop :=
  same_pair (edge_points (0, 0, 0) t e) (edge_points (cell_offset n) t' e').

Definition coincideb (t e t' e' n : Z) : bool :=
  let p := edge_points (0, 0, 0) t e in
  let q := edge_points (cell_offset n) t' e' in
  (point_eqb (fst p) (fst q) && point_eqb (snd p) (snd q)) ||
  (point_eqb (fst p) (snd q) && point_eqb (snd p) (fst q)).

(** The tables list cell [n] with intersection [i'] for intersection [i]. *)
Definition listedb (i n i' : Z) : bool :=
  existsb (fun j => zpair_eqb (neighbour_at i j) (n, i')) (indices 3).

(** The number of coordinates in which two lattice points differ: 1 along
    an edge of the cube, 2 across a face, 3 across the cube. *)
Definition differing (p q : Z * Z * Z) : Z :=
  let '(x, y, z) := p in
  let '(x', y', z') := q in
  (if x =? x' then 0 else 1) + (if y =? y' then 0 else 1)
  + (if z =? z' then 0 else 1).

(** The four triangular faces of tetrahedron [t], as corner lists. *)
Definition faces (t : Z) : list (list Z) :=
  match row TetraederDefinitionTable t with
  | [a; b; c; d] => [[b; c; d]; [a; c; d]; [a; b; d]; [a; b; c]]
  | _ => []
  end.

(** The tetrahedra that have the corners [f] among theirs. *)
Definition tetrahedra_with (f : list Z) : list Z :=
  filter (fun t => subsetb f (row TetraederDefinitionTable t)) (indices 6).

(** The corners [f] lie in one of the six faces of the cube. *)
Definition on_cube_faceb (f : list Z) : bool :=
  let xs := map (fun i => fst (fst (lattice_corner i))) f in
  let ys := map (fun i => snd (fst (lattice_corner i))) f in
  let zs := map (fun i => snd (lattice_corner i)) f in
  let constant l := forallb (Z.eqb 0) l || forallb (Z.eqb 1) l in
  constant xs || constant ys || constant zs.

(** Vectors between lattice points and their triple product. *)
Definition minus3 (p q : Z * Z * Z) : Z * Z * Z :=
  let '(x, y, z) := p in
  let '(x', y', z') := q in (x - x', y - y', z - z').

Definition det3z (u v w : Z * Z * Z) : Z :=
  let '(ux, uy, uz) := u in
  let '(vx, vy, vz) := v in
  let '(wx, wy, wz) := w in
  ux * (vy * wz - vz * wy) - uy * (vx * wz - vz * wx)
  + uz * (vx * wy - vy * wx).

(** The orientation of tetrahedron [t]: the triple product of its edges
    at the first corner (six times its signed volume). *)
Definition orientation (t : Z) : Z :=
  match map lattice_corner (row TetraederDefinitionTable t) with
  | [a; b; c; d] => det3z (minus3 b a) (minus3 c a) (minus3 d a)
  | _ => 0
  end.

(** Twice the midpoint of local edge [e] of tetrahedron [t]. *)
Definition twice_midpoint (t e : Z) : Z * Z * Z :=
  shift (fst (edge_points (0, 0, 0) t e)) (snd (edge_points (0, 0, 0) t e)).

(** The side of the triangle [tri] (its corners at the midpoints of the
    edges it refers to, taken in the order listed) on which corner [k] of
    tetrahedron [t] lies: positive on the side the triangle is seen
    counter-clockwise from, negative on the other. *)
Definition side (t : Z) (tri : list Z) (k : Z) : Z :=
  match tri with
  | [e1; e2; e3] =>
      let p1 := twice_midpoint t e1 in
      let v := lattice_corner (entry TetraederDefinitionTable t k) in
      det3z (minus3 (twice_midpoint t e2) p1)
            (minus3 (twice_midpoint t e3) p1)
            (minus3 (shift v v) p1)
  | _ => 0
  end.

End Cells.

(* ================================================================= *)
(** ** Properties of the tables *)

Section TableFacts.

Import Tables.
Local Open Scope Z_scope.

(** Checking a decidable property on every index of a table. *)
Lemma in_indices (n : nat) (i : Z) :
  0 <= i < Z.of_nat n -> In i (indices n).
Proof.
  intros Hi. unfold indices. apply in_map_iff.
  exists (Z.to_nat i). split; [lia | apply in_seq; lia].
Qed.

Lemma forallb_indices (P : Z -> bool) (n : nat) :
  forallb P (indices n) = true ->
  forall i, 0 <= i < Z.of_nat n -> P i = true.
Proof.
  intros Hall i Hi. rewrite forallb_forall in Hall.
  apply Hall, in_indices, Hi.
Qed.

(** [edge_refs] and [padding] split a row. *)
Lemma edge_refs_padding (r : list Z) : r = edge_refs r ++ padding r.
Proof.
  induction r as [|e r IH]; simpl; [reflexivity|].
  destruct (e =? -1); simpl; [reflexivity | f_equal; exact IH].
Qed.

Lemma edge_refs_app (refs : list Z) (m : nat) :
  Forall (fun e => 0 <= e <= 5) refs ->
  edge_refs (refs ++ repeat (-1) m) = refs /\
  padding (refs ++ repeat (-1) m) = repeat (-1) m.
Proof.
  induction 1 as [|e refs He _ [IH1 IH2]]; simpl.
  - destruct m; simpl; split; reflexivity.
  - destruct (Z.eqb_spec e (-1)) as [->|_]; [lia|].
    rewrite IH1, IH2. split; reflexivity.
Qed.

Lemma forallb_minus_one (l : list Z) :
  forallb (Z.eqb (-1)) l = true <-> l = repeat (-1) (length l).
Proof.
  induction l as [|e l IH]; cbn [forallb length repeat]; [tauto|].
  rewrite andb_true_iff, IH, Z.eqb_eq. split.
  - intros [<- <-]. reflexivity.
  - intros H. injection H as He Hl. split; [symmetry|]; assumption.
Qed.

Lemma forallb_is_edge_ref (l : list Z) :
  forallb is_edge_ref l = true <-> Forall (fun e => 0 <= e <= 5) l.
Proof.
  rewrite forallb_forall, Forall_forall. unfold is_edge_ref.
  split; intros H e He; specialize (H e He);
    rewrite andb_true_iff, !Z.leb_le in *; exact H.
Qed.

(** The boolean reading of a row decides [encodes_triangles] on the rows of
    seven entries. *)
Lemma encodes_triangles_reflect (k : nat) (r : list Z) :
  length r = 7%nat ->
  encodes_triangles k r <-> encodes_trianglesb k r = true.
Proof.
  intros Hlen. unfold encodes_triangles, encodes_trianglesb.
  rewrite !andb_true_iff, !Nat.eqb_eq, forallb_is_edge_ref, forallb_minus_one.
  split.
  - intros (refs & -> & Hl & Hrefs).
    destruct (edge_refs_app refs (7 - 3 * k) Hrefs) as [E P].
    rewrite E, P, repeat_length. auto.
  - intros (((_ & Hl) & Hrefs) & Hpad).
    exists (edge_refs r). repeat split; [|exact Hl|exact Hrefs].
    rewrite (edge_refs_padding r) at 1. f_equal. rewrite Hpad. f_equal.
    pose proof (f_equal (@length Z) (edge_refs_padding r)) as L.
    rewrite length_app in L. lia.
Qed.

Lemma TetraederTable_row_length (c : Z) :
  0 <= c <= 15 -> length (row TetraederTable c) = 7%nat.
Proof.
  intros Hc. apply Nat.eqb_eq.
  apply (forallb_indices
           (fun c => (length (row TetraederTable c) =? 7)%nat) 16);
    [vm_compute; reflexivity | lia].
Qed.

(** C1: for every configuration index c in 0..15, row c of TetraederTable
    encodes zero triangles (only -1) exactly when c is 0 or 15, exactly one
    triangle (3 edge references, then -1 padding) exactly when one or three
    of the four bits of c are set, and exactly two triangles (6 edge
    references, then -1 padding) exactly when two bits are set. *)
Theorem TetraederTable_triangle_counts (c : Z) :
  0 <= c <= 15 ->
  (encodes_triangles 0 (row TetraederTable c) <-> c = 0 \/ c = 15) /\
  (encodes_triangles 1 (row TetraederTable c) <->
     popcount4 c = 1 \/ popcount4 c = 3) /\
  (encodes_triangles 2 (row TetraederTable c) <-> popcount4 c = 2).
Proof.
  intros Hc.
  rewrite !(encodes_triangles_reflect _ _ (TetraederTable_row_length c Hc)).
  assert (In c configs) as Hin by (apply (in_indices 16); lia).
  unfold configs in Hin. cbn in Hin.
  repeat (destruct Hin as [<- | Hin];
          [vm_compute; intuition (discriminate || congruence)|]).
  destruct Hin.
Qed.

Lemma TetraederTable_triangle_counts_witness :
  (encodes_triangles 0 (row TetraederTable 6) <-> 6 = 0 \/ 6 = 15) /\
  (encodes_triangles 1 (row TetraederTable 6) <->
     popcount4 6 = 1 \/ popcount4 6 = 3) /\
  (encodes_triangles 2 (row TetraederTable 6) <-> popcount4 6 = 2).
Proof.
  apply (TetraederTable_triangle_counts 6). lia.
Defined.

Lemma all_entries_spec (rows cols : nat) (P : Z -> Z -> bool) :
  all_entries rows cols P = true ->
  forall i j, 0 <= i < Z.of_nat rows -> 0 <= j < Z.of_nat cols ->
    P i j = true.
Proof.
  intros Hall i j Hi Hj. unfold all_entries in Hall.
  apply (forallb_indices _ rows) with (i := i) in Hall; [|exact Hi].
  apply (forallb_indices _ cols) with (i := j) in Hall; [|exact Hj].
  exact Hall.
Qed.

Lemma padded_from_spec (t : table) (cols : nat) (i j : Z) :
  0 <= j ->
  padded_from t cols i j = true ->
  entry t i j = -1 ->
  forall k, j <= k < Z.of_nat cols -> entry t i k = -1.
Proof.
  unfold padded_from. intros H0 H Hj k Hk.
  apply orb_true_iff in H. destruct H as [H|H].
  - rewrite Hj in H. discriminate H.
  - apply (forallb_indices _ cols) with (i := k) in H; [|lia].
    apply orb_true_iff in H. destruct H as [H|H].
    + apply Z.ltb_lt in H. lia.
    + apply Z.eqb_eq, H.
Qed.

(** C9: every entry of TetraederTable is -1 or an edge identifier in the
    range 0..5, and within a row every entry after a -1 is -1 as well. *)
Theorem TetraederTable_entries (c j : Z) :
  0 <= c <= 15 -> 0 <= j <= 6 ->
  (entry TetraederTable c j = -1 \/ 0 <= entry TetraederTable c j <= 5) /\
  (entry TetraederTable c j = -1 ->
   forall k, j <= k <= 6 -> entry TetraederTable c k = -1).
Proof.
  intros Hc Hj.
  assert (all_entries 16 7
            (fun i j => ((entry TetraederTable i j =? -1) ||
                         is_edge_ref (entry TetraederTable i j)) &&
                        padded_from TetraederTable 7 i j) = true) as Hall
    by (vm_compute; reflexivity).
  apply all_entries_spec with (i := c) (j := j) in Hall; [|lia|lia].
  apply andb_true_iff in Hall. destruct Hall as [Hrange Hpad]. split.
  - apply orb_true_iff in Hrange. destruct Hrange as [H|H].
    + left. apply Z.eqb_eq, H.
    + right. unfold is_edge_ref in H. apply andb_true_iff in H.
      rewrite !Z.leb_le in H. exact H.
  - intros Hm k Hk. apply (padded_from_spec _ 7 _ j (proj1 Hj) Hpad Hm). lia.
Qed.

Lemma TetraederTable_entries_witness :
  (entry TetraederTable 5 3 = -1 \/ 0 <= entry TetraederTable 5 3 <= 5) /\
  (entry TetraederTable 5 3 = -1 ->
   forall k, 3 <= k <= 6 -> entry TetraederTable 5 k = -1).
Proof.
  apply (TetraederTable_entries 5 3); lia.
Defined.

(** C3, as stated: every non-negative entry of TetraederNeighborTable would
    be a tetrahedron slot in 0..5.  The first entry of the table is 12. *)
Lemma TetraederNeighborTable_not_slots :
  ~ (forall i j, 0 <= i <= 18 -> 0 <= j <= 2 ->
       0 <= entry TetraederNeighborTable i j ->
       0 <= entry TetraederNeighborTable i j <= 5).
Proof.
  intros H.
  assert (0 <= entry TetraederNeighborTable 0 0 <= 5) as [_ H5]
    by (apply H; [lia | lia | vm_compute; discriminate]).
  vm_compute in H5. apply H5. reflexivity.
Qed.

(** C3, amended: TetraederNeighborTable has 19 rows (indices 0..18) of 3
    entries; every entry is -1 or lies in the range 1..25, and within a row
    every entry after a -1 is -1 as well, so a row lists up to 3
    neighbours. *)
Theorem TetraederNeighborTable_entries (i j : Z) :
  0 <= i <= 18 -> 0 <= j <= 2 ->
  length TetraederNeighborTable = 19%nat /\
  length (row TetraederNeighborTable i) = 3%nat /\
  (entry TetraederNeighborTable i j = -1 \/
   1 <= entry TetraederNeighborTable i j <= 25) /\
  (entry TetraederNeighborTable i j = -1 ->
   forall k, j <= k <= 2 -> entry TetraederNeighborTable i k = -1).
Proof.
  intros Hi Hj.
  assert (all_entries 19 3
            (fun i j => (length (row TetraederNeighborTable i) =? 3)%nat &&
                        ((entry TetraederNeighborTable i j =? -1) ||
                         ((1 <=? entry TetraederNeighborTable i j) &&
                          (entry TetraederNeighborTable i j <=? 25))) &&
                        padded_from TetraederNeighborTable 3 i j) = true)
    as Hall by (vm_compute; reflexivity).
  apply all_entries_spec with (i := i) (j := j) in Hall; [|lia|lia].
  rewrite !andb_true_iff in Hall. destruct Hall as [[Hlen Hrange] Hpad].
  split; [reflexivity|]. split; [apply Nat.eqb_eq, Hlen|]. split.
  - apply orb_true_iff in Hrange. destruct Hrange as [H|H].
    + left. apply Z.eqb_eq, H.
    + right. apply andb_true_iff in H. rewrite !Z.leb_le in H. exact H.
  - intros Hm k Hk. apply (padded_from_spec _ 3 _ j (proj1 Hj) Hpad Hm). lia.
Qed.

Lemma TetraederNeighborTable_entries_witness :
  length TetraederNeighborTable = 19%nat /\
  length (row TetraederNeighborTable 12) = 3%nat /\
  (entry TetraederNeighborTable 12 1 = -1 \/
   1 <= entry TetraederNeighborTable 12 1 <= 25) /\
  (entry TetraederNeighborTable 12 1 = -1 ->
   forall k, 1 <= k <= 2 -> entry TetraederNeighborTable 12 k = -1).
Proof.
  apply (TetraederNeighborTable_entries 12 1); lia.
Defined.

(** The boolean comparisons of triangles decide the set comparisons. *)
Lemma subsetb_spec (t u : list Z) :
  subsetb t u = true <-> (forall e, In e t -> In e u).
Proof.
  unfold subsetb. rewrite forallb_forall.
  split; intros H e He; specialize (H e He).
  - apply existsb_exists in H. destruct H as (x & Hx & E).
    apply Z.eqb_eq in E. subst x. exact Hx.
  - apply existsb_exists. exists e. split; [exact H | apply Z.eqb_refl].
Qed.

Lemma same_edgesb_spec (t u : list Z) :
  same_edgesb t u = true <-> same_edges t u.
Proof.
  unfold same_edgesb, same_edges.
  rewrite andb_true_iff, !subsetb_spec. split.
  - intros [H1 H2] e. split; [apply H1 | apply H2].
  - intros H. split; intros e; apply H.
Qed.

Lemma same_triangle_setb_spec (T U : list (list Z)) :
  same_triangle_setb T U = true <-> same_triangle_set T U.
Proof.
  unfold same_triangle_setb, same_triangle_set.
  rewrite andb_true_iff, !forallb_forall.
  split; intros [H1 H2]; split.
  - intros t Ht. specialize (H1 t Ht). apply existsb_exists in H1.
    destruct H1 as (u & Hu & E). exists u. split; [exact Hu|].
    apply same_edgesb_spec, E.
  - intros u Hu. specialize (H2 u Hu). apply existsb_exists in H2.
    destruct H2 as (t & Ht & E). exists t. split; [exact Ht|].
    apply same_edgesb_spec, E.
  - intros t Ht. destruct (H1 t Ht) as (u & Hu & E).
    apply existsb_exists. exists u. split; [exact Hu|].
    apply same_edgesb_spec, E.
  - intros u Hu. destruct (H2 u Hu) as (t & Ht & E).
    apply existsb_exists. exists t. split; [exact Ht|].
    apply same_edgesb_spec, E.
Qed.

(** C4: for every configuration index c in 0..15, rows c and 15 - c of
    TetraederTable encode the same set of triangles, each triangle read as
    the unordered set of its 3 edge identifiers. *)
Theorem TetraederTable_complement (c : Z) :
  0 <= c <= 15 ->
  same_triangle_set (triangles (row TetraederTable c))
                    (triangles (row TetraederTable (15 - c))).
Proof.
  intros Hc. apply same_triangle_setb_spec.
  apply (forallb_indices
           (fun c => same_triangle_setb
                       (triangles (row TetraederTable c))
                       (triangles (row TetraederTable (15 - c)))) 16);
    [vm_compute; reflexivity | lia].
Qed.

Lemma TetraederTable_complement_witness :
  same_triangle_set (triangles (row TetraederTable 3))
                    (triangles (row TetraederTable (15 - 3))).
Proof.
  apply (TetraederTable_complement 3). lia.
Defined.

(** The triangles of a pair of complementary rows, as listed. *)
Example triangles_row_3 :
  triangles (row TetraederTable 3) = [[2; 1; 3]; [3; 1; 4]] /\
  triangles (row TetraederTable 12) = [[2; 3; 1]; [3; 4; 1]].
Proof. split; reflexivity. Qed.

Lemma In_neighbours (t : table) (i j : Z) :
  In j (neighbours t i) <-> existsb (Z.eqb j) (neighbours t i) = true.
Proof.
  rewrite existsb_exists. split.
  - intros H. exists j. split; [exact H | apply Z.eqb_refl].
  - intros (x & Hx & E). apply Z.eqb_eq in E. subst x. exact Hx.
Qed.

(** C10: the adjacency of TetraederVertexNBTable is symmetric: for indices
    i, j in 0..18, j is among the non-negative entries of row i exactly
    when i is among the non-negative entries of row j. *)
Theorem TetraederVertexNBTable_symmetric (i j : Z) :
  0 <= i <= 18 -> 0 <= j <= 18 ->
  (In j (neighbours TetraederVertexNBTable i) <->
   In i (neighbours TetraederVertexNBTable j)).
Proof.
  intros Hi Hj. rewrite !In_neighbours.
  assert (all_entries 19 19
            (fun i j =>
               Bool.eqb (existsb (Z.eqb j) (neighbours TetraederVertexNBTable i))
                        (existsb (Z.eqb i) (neighbours TetraederVertexNBTable j)))
          = true) as Hall by (vm_compute; reflexivity).
  apply all_entries_spec with (i := i) (j := j) in Hall; [|lia|lia].
  apply Bool.eqb_prop in Hall. rewrite Hall. tauto.
Qed.

Lemma TetraederVertexNBTable_symmetric_witness :
  In 10 (neighbours TetraederVertexNBTable 8) <->
  In 8 (neighbours TetraederVertexNBTable 10).
Proof.
  apply (TetraederVertexNBTable_symmetric 8 10); lia.
Defined.

End TableFacts.

(* ================================================================= *)
(** ** The six tetrahedra partition the cube *)

Section CubeFacts.

Import Tables Cube.
Local Open Scope R_scope.

Lemma slot_cases (t : Z) :
  (0 <= t <= 5)%Z ->
  t = 0%Z \/ t = 1%Z \/ t = 2%Z \/ t = 3%Z \/ t = 4%Z \/ t = 5%Z.
Proof. lia. Qed.

Lemma tetra_corners_range (t c : Z) :
  (0 <= t <= 5)%Z -> In c (tetra_corners t) -> (0 <= c <= 7)%Z.
Proof.
  intros Ht Hc. apply slot_cases in Ht.
  repeat (destruct Ht as [-> | Ht]); try subst t;
    cbv in Hc; intuition (subst c; lia).
Qed.

(** Under the layout of the cell, the tetrahedra are those of [box_corner]. *)
Lemma tetra_box (corner : Z -> point) (t : Z) :
  box_layout corner -> (0 <= t <= 5)%Z ->
  tetra corner t = tetra box_corner t.
Proof.
  intros L Ht. unfold tetra. apply map_ext_in.
  intros c Hc. apply L. exact (tetra_corners_range t c Ht Hc).
Qed.

Lemma common_box (corner : Z -> point) (s t : Z) :
  box_layout corner -> (0 <= s <= 5)%Z ->
  map corner (common_corners s t) = map box_corner (common_corners s t).
Proof.
  intros L Hs. apply map_ext_in.
  intros c Hc. apply L. unfold common_corners in Hc.
  apply filter_In in Hc. exact (tetra_corners_range s c Hs (proj1 Hc)).
Qed.

(** Naming the four weights of a point of a tetrahedron. *)
Ltac split_weights ws Hpos Hlen Hsum Hcomb :=
  do 4 (destruct ws as [|? ws]; [discriminate Hlen|]);
  (destruct ws; [|discriminate Hlen]);
  repeat (apply Forall_cons_iff in Hpos;
          let Hw := fresh "Hw" in destruct Hpos as [Hw Hpos]);
  clear Hpos Hlen;
  simpl in Hsum, Hcomb;
  injection Hcomb as ? ? ?.

Ltac weights H :=
  let ws := fresh "ws" in
  let Hpos := fresh "Hpos" in
  let Hlen := fresh "Hlen" in
  let Hsum := fresh "Hsum" in
  let Hcomb := fresh "Hcomb" in
  destruct H as (ws & Hpos & Hlen & Hsum & Hcomb);
  split_weights ws Hpos Hlen Hsum Hcomb.

(** Proving that the listed weights put a point in a hull. *)
Ltac check_weights :=
  split;
  [ repeat (apply Forall_cons; [lra|]); apply Forall_nil
  | split; [reflexivity
           | split; [simpl; lra | simpl; f_equal; [f_equal|]; lra]] ].

Ltac give_weights ws := exists ws; check_weights.

(** Every tetrahedron lies in the cube. *)
Lemma tetra_in_cube (t : Z) (p : point) :
  (0 <= t <= 5)%Z -> in_hull (tetra box_corner t) p -> in_cube p.
Proof.
  intros Ht H. destruct p as [[x y] z]. apply slot_cases in Ht.
  repeat (destruct Ht as [-> | Ht]); try subst t.
  all: weights H; unfold in_cube; lra.
Qed.

(** Every point of the cube lies in a tetrahedron: the corner tetrahedra 0
    and 5 are cut off by the planes [x + y + z = 1] and [x + y + z = 2];
    the planes [x + z = 1] and [y + z = 1] through the diagonal from
    corner 2 to corner 4 separate the other four. *)
Lemma cube_covered (p : point) :
  in_cube p -> exists t, (0 <= t <= 5)%Z /\ in_hull (tetra box_corner t) p.
Proof.
  destruct p as [[x y] z]. unfold in_cube. intros (Hx & Hy & Hz).
  destruct (Rle_dec (x + y + z) 1) as [L1 | L1].
  { exists 0%Z. split; [lia|]. give_weights [1 - x - y - z; x; y; z]. }
  destruct (Rle_dec 2 (x + y + z)) as [L2 | L2].
  { exists 5%Z. split; [lia|].
    give_weights [1 - z; 1 - y; x + y + z - 2; 1 - x]. }
  destruct (Rle_dec (x + z) 1) as [Lx | Lx];
    destruct (Rle_dec (y + z) 1) as [Ly | Ly].
  - exists 1%Z. split; [lia|].
    give_weights [1 - x - z; 1 - y - z; x + y + z - 1; z].
  - exists 2%Z. split; [lia|].
    give_weights [1 - y; x; 1 - x - z; y + z - 1].
  - exists 3%Z. split; [lia|].
    give_weights [1 - y - z; x + z - 1; y; 1 - x].
  - exists 4%Z. split; [lia|].
    give_weights [2 - x - y - z; x + z - 1; 1 - z; y + z - 1].
Qed.

(** No point is interior to two tetrahedra. *)
Lemma interiors_disjoint (s t : Z) (p : point) :
  (0 <= s <= 5)%Z -> (0 <= t <= 5)%Z -> s <> t ->
  in_interior (tetra box_corner s) p ->
  in_interior (tetra box_corner t) p -> False.
Proof.
  intros Hs Ht Hst H1 H2. destruct p as [[x y] z].
  apply slot_cases in Hs. apply slot_cases in Ht.
  repeat (destruct Hs as [-> | Hs]); try subst s.
  all: repeat (destruct Ht as [-> | Ht]); try subst t.
  all: try (exfalso; apply Hst; reflexivity).
  all: weights H1; weights H2; lra.
Qed.

(** A point of two tetrahedra is a convex combination of their common
    corners: they meet in a common face, edge or corner. *)
Lemma common_face (s t : Z) (p : point) :
  (0 <= s <= 5)%Z -> (0 <= t <= 5)%Z -> s <> t ->
  in_hull (tetra box_corner s) p ->
  in_hull (tetra box_corner t) p ->
  in_hull (map box_corner (common_corners s t)) p.
Proof.
  intros Hs Ht Hst H1 H2. destruct p as [[x y] z].
  destruct H1 as (ws & Hpos & Hlen & Hsum & Hcomb).
  unfold in_hull. cut (exists ws', ws' = shared_weights s t ws /\
    (Forall (fun w => 0 <= w) ws' /\
     weights_of ws' (map box_corner (common_corners s t)) (x, y, z))).
  { intros (ws' & _ & H). exists ws'. exact H. }
  apply slot_cases in Hs. apply slot_cases in Ht.
  repeat (destruct Hs as [-> | Hs]); try subst s.
  all: repeat (destruct Ht as [-> | Ht]); try subst t.
  all: try (exfalso; apply Hst; reflexivity).
  all: split_weights ws Hpos Hlen Hsum Hcomb; weights H2.
  all: first [ exfalso; lra
             | eexists; split;
               [unfold shared_weights; simpl; reflexivity | check_weights] ].
Qed.

Lemma common_corners_length (s t : Z) :
  (0 <= s <= 5)%Z -> (0 <= t <= 5)%Z -> s <> t ->
  (length (common_corners s t) <= 3)%nat.
Proof.
  intros Hs Ht Hst. apply slot_cases in Hs. apply slot_cases in Ht.
  repeat (destruct Hs as [-> | Hs]); try subst s.
  all: repeat (destruct Ht as [-> | Ht]); try subst t.
  all: try (exfalso; apply Hst; reflexivity).
  all: vm_compute; lia.
Qed.

(** Each tetrahedron has a sixth of the volume of the cube. *)
Lemma tetra_volume (t : Z) :
  (0 <= t <= 5)%Z -> volume (tetra box_corner t) = 1 / 6.
Proof.
  intros Ht. apply slot_cases in Ht.
  repeat (destruct Ht as [-> | Ht]); try subst t.
  all: simpl; unfold Rabs; destruct (Rcase_abs _); lra.
Qed.

(** C5: the six corner 4-tuples of TetraederDefinitionTable, read in the
    corner numbering of the cube cell, define six tetrahedra that partition
    the axis-aligned unit cube: their union is the cube, each has a sixth
    of its volume, no point is interior to two of them, and two of them
    meet only in the face (triangle, edge or corner) spanned by the corners
    they share. *)
Theorem tetrahedra_partition_cube (corner : Z -> point) :
  box_layout corner ->
  (forall p, in_cube p <->
             exists t, (0 <= t <= 5)%Z /\ in_hull (tetra corner t) p) /\
  (forall t, (0 <= t <= 5)%Z -> volume (tetra corner t) = 1 / 6) /\
  (forall s t p, (0 <= s <= 5)%Z -> (0 <= t <= 5)%Z -> s <> t ->
     ~ (in_interior (tetra corner s) p /\ in_interior (tetra corner t) p)) /\
  (forall s t p, (0 <= s <= 5)%Z -> (0 <= t <= 5)%Z -> s <> t ->
     in_hull (tetra corner s) p -> in_hull (tetra corner t) p ->
     (length (common_corners s t) <= 3)%nat /\
     in_hull (map corner (common_corners s t)) p).
Proof.
  intros L. split; [|split; [|split]].
  - intros p. split.
    + intros Hp. destruct (cube_covered p Hp) as (t & Ht & H).
      exists t. rewrite (tetra_box corner t L Ht). auto.
    + intros (t & Ht & H). rewrite (tetra_box corner t L Ht) in H.
      exact (tetra_in_cube t p Ht H).
  - intros t Ht. rewrite (tetra_box corner t L Ht). exact (tetra_volume t Ht).
  - intros s t p Hs Ht Hst [H1 H2].
    rewrite (tetra_box corner s L Hs) in H1.
    rewrite (tetra_box corner t L Ht) in H2.
    exact (interiors_disjoint s t p Hs Ht Hst H1 H2).
  - intros s t p Hs Ht Hst H1 H2. split.
    + exact (common_corners_length s t Hs Ht Hst).
    + rewrite (tetra_box corner s L Hs) in H1.
      rewrite (tetra_box corner t L Ht) in H2.
      rewrite (common_box corner s t L Hs).
      exact (common_face s t p Hs Ht Hst H1 H2).
Qed.

Lemma tetrahedra_partition_cube_witness :
  (forall p, in_cube p <->
             exists t, (0 <= t <= 5)%Z /\ in_hull (tetra box_corner t) p) /\
  (forall t, (0 <= t <= 5)%Z -> volume (tetra box_corner t) = 1 / 6) /\
  (forall s t p, (0 <= s <= 5)%Z -> (0 <= t <= 5)%Z -> s <> t ->
     ~ (in_interior (tetra box_corner s) p /\
        in_interior (tetra box_corner t) p)) /\
  (forall s t p, (0 <= s <= 5)%Z -> (0 <= t <= 5)%Z -> s <> t ->
     in_hull (tetra box_corner s) p -> in_hull (tetra box_corner t) p ->
     (length (common_corners s t) <= 3)%nat /\
     in_hull (map box_corner (common_corners s t)) p).
Proof.
  apply (tetrahedra_partition_cube box_corner).
  intros i _. reflexivity.
Defined.

(** The corner numbering matters: were the corners counted in binary, the
    centre of the cube would lie on an edge of tetrahedron 1 and on an edge
    of tetrahedron 3, but not in the triangle of their common corners. *)
Remark binary_numbering_no_partition :
  let c := (1 / 2, 1 / 2, 1 / 2) in
  in_hull (tetra binary_corner 1) c /\
  in_hull (tetra binary_corner 3) c /\
  ~ in_hull (map binary_corner (common_corners 1 3)) c.
Proof.
  change (tetra binary_corner 1)
    with [(1, 1, 0); (1, 0, 0); (0, 1, 0); (0, 0, 1)].
  change (tetra binary_corner 3)
    with [(1, 0, 0); (1, 0, 1); (0, 1, 0); (0, 0, 1)].
  change (map binary_corner (common_corners 1 3))
    with [(1, 0, 0); (0, 1, 0); (0, 0, 1)].
  simpl. repeat split.
  - give_weights [1 / 2; 0; 0; 1 / 2].
  - give_weights [0; 1 / 2; 1 / 2; 0].
  - intros (ws & Hpos & Hlen & Hsum & Hcomb).
    do 3 (destruct ws as [|? ws]; [discriminate Hlen|]).
    destruct ws; [|discriminate Hlen].
    simpl in Hsum, Hcomb. injection Hcomb as ? ? ?. lra.
Qed.

End CubeFacts.

(* ================================================================= *)
(** ** Properties of the point cloud manager *)

Section ManagerFacts.

Import Manager.
Local Open Scope Q_scope.

(** C2: for every query vertex, every count k and every content of nb,
    getkClosestNormals leaves nb and the manager as they are. *)
Theorem getkClosestNormals_noop (m : FlannPointCloudManager) (q : VertexT)
    (k : nat) (nb : list NormalT) :
  getkClosestNormals m q k nb = (m, nb).
Proof. reflexivity. Qed.

(** *** The nearest-neighbour search *)

Lemma insert_by_distance_length q x l :
  length (insert_by_distance q x l) = S (length l).
Proof.
  induction l as [|y l IH]; simpl; [reflexivity|].
  destruct (Qle_bool _ _); simpl; [reflexivity | rewrite IH; reflexivity].
Qed.

Lemma sort_by_distance_length q l :
  length (sort_by_distance q l) = length l.
Proof.
  induction l as [|x l IH]; simpl; [reflexivity|].
  rewrite insert_by_distance_length, IH. reflexivity.
Qed.

Lemma insert_by_distance_In q x l y :
  In y (insert_by_distance q x l) <-> y = x \/ In y l.
Proof.
  induction l as [|z l IH]; simpl.
  - intuition.
  - destruct (Qle_bool _ _); simpl; [intuition|].
    rewrite IH. intuition.
Qed.

Lemma sort_by_distance_In q l y :
  In y (sort_by_distance q l) <-> In y l.
Proof.
  induction l as [|x l IH]; simpl; [tauto|].
  rewrite insert_by_distance_In, IH. intuition.
Qed.

Lemma nearer_trans q a b c : nearer q a b -> nearer q b c -> nearer q a c.
Proof. unfold nearer. apply Qle_trans. Qed.

Lemma insert_by_distance_sorted q x l :
  StronglySorted (nearer q) l ->
  StronglySorted (nearer q) (insert_by_distance q x l).
Proof.
  induction 1 as [|y l Hl IH Hy]; simpl.
  - repeat constructor.
  - destruct (Qle_bool (sqdist q (snd x)) (sqdist q (snd y))) eqn:E.
    + apply Qle_bool_iff in E.
      constructor; [constructor; assumption|].
      constructor; [exact E|].
      eapply Forall_impl; [|exact Hy].
      intros z Hz. exact (nearer_trans q x y z E Hz).
    + constructor; [exact IH|].
      apply Forall_forall. intros z Hz.
      apply insert_by_distance_In in Hz. destruct Hz as [-> | Hz].
      * unfold nearer. apply Qlt_le_weak, Qnot_le_lt.
        intros H. apply Qle_bool_iff in H. congruence.
      * rewrite Forall_forall in Hy. exact (Hy z Hz).
Qed.

Lemma sort_by_distance_sorted q l :
  StronglySorted (nearer q) (sort_by_distance q l).
Proof.
  induction l as [|x l IH]; simpl; [constructor|].
  apply insert_by_distance_sorted, IH.
Qed.

Lemma In_firstn_In {A : Type} (k : nat) (l : list A) (x : A) :
  In x (firstn k l) -> In x l.
Proof.
  intros H. rewrite <- (firstn_skipn k l). apply in_or_app. left. exact H.
Qed.

Lemma firstn_StronglySorted {A : Type} (R : A -> A -> Prop) (k : nat) l :
  StronglySorted R l -> StronglySorted R (firstn k l).
Proof.
  intros H. revert k. induction H as [|x l Hl IH Hx]; intros [|k]; simpl;
    try constructor.
  - apply IH.
  - apply Forall_forall. intros y Hy. rewrite Forall_forall in Hx.
    apply Hx. apply (In_firstn_In k l). exact Hy.
Qed.

Lemma StronglySorted_map {A B : Type} (R : B -> B -> Prop) (f : A -> B) l :
  StronglySorted (fun a b => R (f a) (f b)) l -> StronglySorted R (map f l).
Proof.
  induction 1 as [|x l Hl IH Hx]; simpl; constructor; [exact IH|].
  apply Forall_map. exact Hx.
Qed.

(** The ids the search pairs with the points are their positions. *)
Lemma combine_seq_nth (l : list VertexT) (s i : nat) (v : VertexT) :
  In (i, v) (combine (seq s (length l)) l) ->
  (s <= i)%nat /\ nth (i - s) l origin = v /\ In v l.
Proof.
  revert s. induction l as [|x l IH]; simpl; intros s H; [destruct H|].
  destruct H as [H | H].
  - injection H as <- <-. rewrite Nat.sub_diag. auto.
  - apply IH in H. destruct H as (Hs & Hn & Hin).
    split; [lia|]. split; [|right; exact Hin].
    replace (i - s)%nat with (S (i - S s)) by lia. exact Hn.
Qed.

Lemma indexed_fromID (m : FlannPointCloudManager) (e : nat * VertexT) :
  In e (indexed (m_points m)) ->
  fromID m (fst e) = snd e /\ In (snd e) (m_points m).
Proof.
  destruct e as [i v]. intros H. apply combine_seq_nth in H.
  destruct H as (_ & Hn & Hin). rewrite Nat.sub_0_r in Hn.
  split; [exact Hn | exact Hin].
Qed.

Lemma ksearch_length (pts : list VertexT) (q : VertexT) (k : nat) :
  length (ksearch pts q k) = Nat.min k (length pts).
Proof.
  unfold ksearch, indexed.
  rewrite length_map, length_firstn, sort_by_distance_length,
    length_combine, length_seq, Nat.min_id.
  reflexivity.
Qed.

(** The vertices of the ids found are the points the search ranked. *)
Lemma getkClosestVertices_points m v k nb :
  getkClosestVertices m v k nb =
  map snd (firstn k (sort_by_distance v (indexed (m_points m)))).
Proof.
  unfold getkClosestVertices, ksearch. rewrite map_map.
  apply map_ext_in. intros e He.
  apply In_firstn_In, sort_by_distance_In in He.
  apply (indexed_fromID m e He).
Qed.

Lemma euclid_monotone (q a b : VertexT) :
  sqdist q a <= sqdist q b -> (euclid q a <= euclid q b)%R.
Proof.
  intros H. unfold euclid. apply sqrt_le_1_alt, Qle_Rle, H.
Qed.

(** The search ranks every point once: sorting permutes the list. *)
Lemma insert_by_distance_perm q x l :
  Permutation (insert_by_distance q x l) (x :: l).
Proof.
  induction l as [|y l IH]; simpl; [apply Permutation_refl|].
  destruct (Qle_bool _ _); [apply Permutation_refl|].
  apply perm_trans with (y :: x :: l);
    [apply perm_skip, IH | apply perm_swap].
Qed.

Lemma sort_by_distance_perm q l : Permutation (sort_by_distance q l) l.
Proof.
  induction l as [|x l IH]; simpl; [apply perm_nil|].
  apply perm_trans with (x :: sort_by_distance q l);
    [apply insert_by_distance_perm | apply perm_skip, IH].
Qed.

Lemma indexed_points (pts : list VertexT) : map snd (indexed pts) = pts.
Proof.
  unfold indexed. generalize 0%nat.
  induction pts as [|x pts IH]; intros s; simpl; [reflexivity|].
  rewrite IH. reflexivity.
Qed.

(** In a sorted list, what comes first is related to what comes later. *)
Lemma StronglySorted_app {A : Type} (R : A -> A -> Prop) (l1 l2 : list A) :
  StronglySorted R (l1 ++ l2) ->
  forall a b, In a l1 -> In b l2 -> R a b.
Proof.
  induction l1 as [|x l1 IH]; simpl; intros H a b Ha Hb; [destruct Ha|].
  apply StronglySorted_inv in H. destruct H as [Hs Hx].
  destruct Ha as [<- | Ha].
  - rewrite Forall_forall in Hx. apply Hx, in_or_app. right. exact Hb.
  - exact (IH Hs a b Ha Hb).
Qed.

(** The points the search ranks behind the first [k]. *)
Lemma getkClosestVertices_rest m v k nb :
  let rest := map snd (skipn k (sort_by_distance v (indexed (m_points m)))) in
  Permutation (getkClosestVertices m v k nb ++ rest) (m_points m) /\
  (forall a b, In a (getkClosestVertices m v k nb) -> In b rest ->
     (euclid v a <= euclid v b)%R).
Proof.
  intros rest. unfold rest. rewrite getkClosestVertices_points. split.
  - rewrite <- map_app, firstn_skipn.
    rewrite <- (indexed_points (m_points m)) at 2.
    apply Permutation_map, sort_by_distance_perm.
  - intros a b Ha Hb.
    apply in_map_iff in Ha. destruct Ha as (x & <- & Hx).
    apply in_map_iff in Hb. destruct Hb as (y & <- & Hy).
    apply euclid_monotone.
    apply (StronglySorted_app (nearer v)
             (firstn k (sort_by_distance v (indexed (m_points m))))
             (skipn k (sort_by_distance v (indexed (m_points m)))));
      [|exact Hx|exact Hy].
    rewrite firstn_skipn. apply sort_by_distance_sorted.
Qed.

(** C6: on a manager holding n points, getkClosestVertices fills nb with
    exactly min(k, n) points, ordered by non-decreasing Euclidean distance
    to the query vertex.  They are min(k, n) different stored points and
    the nearest ones: together with the points left out they are the
    point set of the manager, each stored point counted once, and no point
    left out is nearer to the query than a point of nb. *)
Theorem getkClosestVertices_spec (m : FlannPointCloudManager) (v : VertexT)
    (k : nat) (nb : list VertexT) :
  length (getkClosestVertices m v k nb) = Nat.min k (numPoints m) /\
  StronglySorted (fun a b => (euclid v a <= euclid v b)%R)
                 (getkClosestVertices m v k nb) /\
  incl (getkClosestVertices m v k nb) (m_points m) /\
  (exists rest : list VertexT,
     Permutation (getkClosestVertices m v k nb ++ rest) (m_points m) /\
     (forall a b, In a (getkClosestVertices m v k nb) -> In b rest ->
        (euclid v a <= euclid v b)%R)).
Proof.
  split; [|split; [|split]].
  - unfold getkClosestVertices. rewrite length_map. apply ksearch_length.
  - rewrite getkClosestVertices_points. apply StronglySorted_map.
    apply firstn_StronglySorted.
    eapply StronglySorted_ind with (l := sort_by_distance v (indexed (m_points m)));
      [constructor | | apply sort_by_distance_sorted].
    intros a l _ IH Ha. constructor; [exact IH|].
    eapply Forall_impl; [|exact Ha].
    intros b Hb. apply euclid_monotone, Hb.
  - rewrite getkClosestVertices_points. intros a Ha.
    apply in_map_iff in Ha. destruct Ha as (e & <- & He).
    apply In_firstn_In, sort_by_distance_In in He.
    apply (indexed_fromID m e He).
  - eexists. apply getkClosestVertices_rest.
Qed.

(** The two points nearest to [(1, 0, 0)] (of the two corners at distance
    1 the one with the smaller index comes first), and a count that
    exceeds the five points stored. *)
Example getkClosestVertices_pyramid :
  getkClosestVertices (pyramidManager 3) (mkVertex 1 0 0) 2 [] =
    [mkVertex 1 0 0; mkVertex 0 0 0] /\
  length (getkClosestVertices (pyramidManager 3) (mkVertex 1 0 0) 9 []) = 5%nat.
Proof. split; reflexivity. Qed.

(** *** The distance query *)

Context {N : Numerics}.

Lemma first_some_none {A B : Type} (f : A -> option B) (l : list A) :
  first_some f l = None <-> (forall x, In x l -> f x = None).
Proof.
  induction l as [|x l IH]; simpl.
  - split; [intros _ y [] | reflexivity].
  - destruct (f x) eqn:E.
    + split; [discriminate|]. intros H.
      rewrite <- E. apply H. left. reflexivity.
    + rewrite IH. split.
      * intros H y [<- | Hy]; [exact E | apply H, Hy].
      * intros H y Hy. apply H. right. exact Hy.
Qed.

Lemma first_some_some {A B : Type} (f : A -> option B) (l : list A) (y : B) :
  first_some f l = Some y -> exists x, In x l /\ f x = Some y.
Proof.
  induction l as [|x l IH]; simpl; [discriminate|].
  destruct (f x) eqn:E.
  - intros H. injection H as <-. exists x. split; [left; reflexivity | exact E].
  - intros H. destruct (IH H) as (x' & Hx' & E').
    exists x'. split; [right; exact Hx' | exact E'].
Qed.

(** With fewer than [m_kn] points no neighbourhood is complete, and no
    tangent plane is fitted. *)
Lemma tangentPlane_short (m : FlannPointCloudManager) (i : nat) :
  (Z.of_nat (numPoints m) < m_kn m)%Z -> tangentPlane m i = None.
Proof.
  intros Hn. unfold tangentPlane, calcPlane.
  rewrite ksearch_length.
  destruct (Z.ltb_spec
              (Z.of_nat (Nat.min (Z.to_nat (m_kn m)) (length (m_points m))))
              (m_kn m)) as [_ | H]; [reflexivity|].
  unfold numPoints in Hn. lia.
Qed.

(** C7: for every vertex v, the distance query fails whenever no tangent
    plane of a neighbour can be fitted, in particular whenever the number
    of stored points is smaller than the neighbourhood size kn; a pair of
    distances it returns is measured against a fitted plane. *)
Theorem distance_fails (m : FlannPointCloudManager) (v : VertexT) :
  ((forall i, In i (ksearch (m_points m) v (Z.to_nat (m_kd m))) ->
              tangentPlane m i = None) ->
   distance m v = None) /\
  ((Z.of_nat (numPoints m) < m_kn m)%Z -> distance m v = None) /\
  (forall d e, distance m v = Some (d, e) ->
     exists i pl,
       In i (ksearch (m_points m) v (Z.to_nat (m_kd m))) /\
       tangentPlane m i = Some pl /\
       d = vdot (vsub v (p pl)) (n pl) /\ e = vlength (vsub v (p pl))).
Proof.
  assert ((forall i, In i (ksearch (m_points m) v (Z.to_nat (m_kd m))) ->
                     tangentPlane m i = None) ->
          distance m v = None) as Hfail.
  { intros H. unfold distance.
    apply first_some_none in H. rewrite H. reflexivity. }
  split; [exact Hfail|]. split.
  - intros Hn. apply Hfail. intros i _. apply tangentPlane_short, Hn.
  - intros d e. unfold distance.
    destruct (first_some _ _) as [pl|] eqn:E; [|discriminate].
    intros H. injection H as <- <-.
    apply first_some_some in E. destruct E as (i & Hi & Hpl).
    exists i, pl. auto.
Qed.

(** *** Normal estimation *)

Lemma calcNormals_same_data (m : FlannPointCloudManager) :
  same_data (calcNormals m) m.
Proof. unfold same_data. simpl. auto. Qed.

Lemma setNormals_same_data (m : FlannPointCloudManager) ns :
  same_data (setNormals m ns) m.
Proof. unfold same_data. simpl. auto. Qed.

(** The normals computed depend on the point data only. *)
Lemma calcNormals_frame (m m' : FlannPointCloudManager) :
  same_data m m' -> calcNormals m = calcNormals m'.
Proof.
  destruct m as [pts ns kn ki kd ce], m' as [pts' ns' kn' ki' kd' ce'].
  unfold same_data. simpl. intros (-> & -> & -> & -> & ->).
  reflexivity.
Qed.

Lemma calcNormals_length (m : FlannPointCloudManager) :
  exists normals,
    m_normals (calcNormals m) = Some normals /\
    length normals = numPoints m.
Proof.
  eexists. split; [reflexivity|].
  unfold interpolateSurfaceNormals, pointIds.
  rewrite length_map, length_seq. reflexivity.
Qed.

(** C8: calcNormals is idempotent on unchanged data: a second invocation
    yields exactly the state of the first, and an invocation overwrites the
    normals stored before, whatever they were, with one normal per point. *)
Theorem calcNormals_idempotent (m : FlannPointCloudManager) :
  calcNormals (calcNormals m) = calcNormals m /\
  (forall ns, calcNormals (setNormals m ns) = calcNormals m) /\
  (exists normals,
     m_normals (calcNormals m) = Some normals /\
     length normals = numPoints m).
Proof.
  split; [|split].
  - apply calcNormals_frame, calcNormals_same_data.
  - intros ns. apply calcNormals_frame, setNormals_same_data.
  - apply calcNormals_length.
Qed.

End ManagerFacts.

(** The distance query on five points with a neighbourhood size of six. *)
Lemma distance_fails_witness :
  Manager.distance (N := Manager.flatNumerics) (Manager.pyramidManager 6)
    (Manager.mkVertex 0 0 1) = None.
Proof.
  apply (proj1 (proj2 (distance_fails (N := Manager.flatNumerics)
                         (Manager.pyramidManager 6)
                         (Manager.mkVertex 0 0 1)))).
  vm_compute. reflexivity.
Defined.

(** With a neighbourhood size of five the planes are fitted, and the query
    returns the distances to the plane of the nearest point, the apex. *)
Example distance_pyramid :
  match Manager.distance (N := Manager.flatNumerics) (Manager.pyramidManager 5)
          (Manager.mkVertex 0 0 1) with
  | Some (d, e) => (d == 0 /\ e == 1)%Q
  | None => False
  end.
Proof. vm_compute. split; reflexivity. Qed.

(** On the test data, the normals of a second invocation are those of the
    first, although the first started without normals. *)
Example calcNormals_pyramid :
  Manager.m_normals
    (Manager.calcNormals (N := Manager.flatNumerics)
       (Manager.calcNormals (N := Manager.flatNumerics)
          (Manager.pyramidManager 5)))
  = Manager.m_normals
      (Manager.calcNormals (N := Manager.flatNumerics)
         (Manager.pyramidManager 5)).
Proof. vm_compute. reflexivity. Qed.

(* ================================================================= *)
(** ** The tables against each other *)

Section CellFacts.

Import Tables Cells.
Local Open Scope Z_scope.

Lemma indices_range (n : nat) (i : Z) :
  In i (indices n) -> 0 <= i < Z.of_nat n.
Proof.
  unfold indices. intros H. apply in_map_iff in H.
  destruct H as (k & <- & Hk). apply in_seq in Hk. lia.
Qed.

Lemma existsb_indices (P : Z -> bool) (n : nat) :
  existsb P (indices n) = true <->
  exists i, 0 <= i < Z.of_nat n /\ P i = true.
Proof.
  rewrite existsb_exists. split; intros (i & Hi & HP); exists i.
  - split; [apply indices_range, Hi | exact HP].
  - split; [apply in_indices, Hi | exact HP].
Qed.

Lemma eqb_iff (x y : bool) :
  Bool.eqb x y = true <-> (x = true <-> y = true).
Proof. destruct x, y; simpl; intuition discriminate. Qed.

Lemma zpair_eqb_spec (p q : Z * Z) : zpair_eqb p q = true <-> p = q.
Proof.
  destruct p as [a b], q as [a' b']. unfold zpair_eqb. simpl.
  rewrite andb_true_iff, !Z.eqb_eq. split.
  - intros [-> ->]. reflexivity.
  - intros H. injection H as -> ->. auto.
Qed.

Lemma same_zpairb_spec (p q : Z * Z) :
  same_zpairb p q = true <-> same_pair p q.
Proof.
  unfold same_zpairb, same_pair.
  rewrite orb_true_iff, !zpair_eqb_spec. reflexivity.
Qed.

Lemma cutb_spec (c : Z) (ends : Z * Z) : cutb c ends = true <-> cut c ends.
Proof.
  unfold cutb, cut. rewrite negb_true_iff, Z.eqb_neq. reflexivity.
Qed.

Lemma referencesb_spec (c e : Z) :
  referencesb c e = true <-> In e (edge_refs (row TetraederTable c)).
Proof.
  unfold referencesb. rewrite existsb_exists. split.
  - intros (x & Hx & E). apply Z.eqb_eq in E. subst x. exact Hx.
  - intros H. exists e. split; [exact H | apply Z.eqb_refl].
Qed.

(** [agreesb] decides that a pair of ends explains the column of edge [e]. *)
Lemma agreesb_spec (ends : Z * Z) (e : Z) :
  agreesb ends e = true <->
  (forall c, 0 <= c <= 15 ->
     (In e (edge_refs (row TetraederTable c)) <-> cut c ends)).
Proof.
  unfold agreesb. rewrite forallb_forall. split.
  - intros H c Hc. rewrite <- referencesb_spec, <- cutb_spec.
    apply eqb_iff, H, (in_indices 16). lia.
  - intros H c Hc. apply (indices_range 16) in Hc.
    apply eqb_iff. rewrite referencesb_spec, cutb_spec. apply H. lia.
Qed.

(** Among the pairs of corners, only the ends of [edge_ends] (in either
    order) explain a column. *)
Lemma agreesb_edge_ends (e a b : Z) :
  0 <= e <= 5 -> 0 <= a <= 3 -> 0 <= b <= 3 ->
  agreesb (a, b) e = same_zpairb (a, b) (edge_ends e).
Proof.
  intros He Ha Hb. apply Bool.eqb_prop.
  assert (forallb (fun e =>
            all_entries 4 4 (fun a b =>
              Bool.eqb (agreesb (a, b) e)
                       (same_zpairb (a, b) (edge_ends e)))) (indices 6)
          = true) as Hall by (vm_compute; reflexivity).
  apply (forallb_indices _ 6) with (i := e) in Hall; [|lia].
  apply all_entries_spec with (i := a) (j := b) in Hall; [exact Hall|lia|lia].
Qed.

(** The rows of TetraederTable refer to exactly the edges the surface
    cuts, and this fixes the ends of the six local edges: an assignment of
    two corners to every edge identifier makes every row refer to exactly
    the edges whose ends differ in sign if and only if it is [edge_ends],
    up to the order of the two ends. *)
Theorem TetraederTable_cut_edges (ends : Z -> Z * Z) :
  (forall e, 0 <= e <= 5 ->
     0 <= fst (ends e) <= 3 /\ 0 <= snd (ends e) <= 3) ->
  ((forall c e, 0 <= c <= 15 -> 0 <= e <= 5 ->
      (In e (edge_refs (row TetraederTable c)) <-> cut c (ends e))) <->
   (forall e, 0 <= e <= 5 -> same_pair (ends e) (edge_ends e))).
Proof.
  intros Hends. split.
  - intros H e He. apply same_zpairb_spec.
    destruct (Hends e He) as [Ha Hb].
    destruct (ends e) as [a b] eqn:E. simpl in Ha, Hb.
    rewrite <- (agreesb_edge_ends e a b He Ha Hb).
    apply agreesb_spec. intros c Hc. rewrite <- E. apply H; assumption.
  - intros H c e Hc He. specialize (H e He). apply same_zpairb_spec in H.
    destruct (Hends e He) as [Ha Hb].
    destruct (ends e) as [a b] eqn:E. simpl in Ha, Hb.
    rewrite <- (agreesb_edge_ends e a b He Ha Hb) in H.
    apply agreesb_spec; assumption.
Qed.

Lemma edge_ends_range (e : Z) :
  0 <= e <= 5 ->
  0 <= fst (edge_ends e) <= 3 /\ 0 <= snd (edge_ends e) <= 3.
Proof.
  intros He.
  assert (e = 0 \/ e = 1 \/ e = 2 \/ e = 3 \/ e = 4 \/ e = 5) as C by lia.
  repeat (destruct C as [-> | C]); try subst e; simpl; lia.
Qed.

Lemma TetraederTable_cut_edges_witness :
  In 4 (edge_refs (row TetraederTable 6)) <-> cut 6 (edge_ends 4).
Proof.
  apply (proj2 (TetraederTable_cut_edges edge_ends edge_ends_range));
    [intros e _; left; reflexivity | lia | lia].
Defined.

Lemma config_cases (c : Z) : 0 <= c <= 15 -> In c configs.
Proof. intros Hc. apply (in_indices 16). lia. Qed.

(** Exchanging inside and outside turns every triangle over: row 15 - c
    lists the triangles of row c in the same order, each with its second
    and third edge exchanged. *)
Theorem TetraederTable_complement_winding (c : Z) :
  0 <= c <= 15 ->
  triangles (row TetraederTable (15 - c)) =
  map reverse_winding (triangles (row TetraederTable c)).
Proof.
  intros Hc. apply config_cases in Hc. unfold configs in Hc. cbn in Hc.
  repeat (destruct Hc as [<- | Hc]; [reflexivity|]).
  destruct Hc.
Qed.

Lemma TetraederTable_complement_winding_witness :
  triangles (row TetraederTable (15 - 5)) =
  map reverse_winding (triangles (row TetraederTable 5)).
Proof.
  apply (TetraederTable_complement_winding 5). lia.
Defined.



(** Every entry of TetraederIntersectionTable is an intersection
    identifier in 0..18, and each of the 19 identifiers is the entry of
    some edge of some tetrahedron. *)
Theorem TetraederIntersectionTable_ids (t e i : Z) :
  0 <= t <= 5 -> 0 <= e <= 5 -> 0 <= i <= 18 ->
  0 <= entry TetraederIntersectionTable t e <= 18 /\
  (exists t' e', 0 <= t' <= 5 /\ 0 <= e' <= 5 /\
                 entry TetraederIntersectionTable t' e' = i).
Proof.
  intros Ht He Hi. split.
  - assert (all_entries 6 6
              (fun t e => (0 <=? entry TetraederIntersectionTable t e) &&
                          (entry TetraederIntersectionTable t e <=? 18))
            = true) as Hall by (vm_compute; reflexivity).
    apply all_entries_spec with (i := t) (j := e) in Hall; [|lia|lia].
    apply andb_true_iff in Hall. rewrite !Z.leb_le in Hall. exact Hall.
  - assert (forallb (fun i =>
              existsb (fun t' =>
                existsb (fun e' =>
                  entry TetraederIntersectionTable t' e' =? i) (indices 6))
                (indices 6)) (indices 19) = true) as Hall
      by (vm_compute; reflexivity).
    apply (forallb_indices _ 19) with (i := i) in Hall; [|lia].
    apply existsb_indices in Hall. destruct Hall as (t' & Ht' & Hall).
    apply existsb_indices in Hall. destruct Hall as (e' & He' & Hall).
    exists t', e'. apply Z.eqb_eq in Hall. repeat split; (lia || exact Hall).
Qed.

Lemma TetraederIntersectionTable_ids_witness :
  0 <= entry TetraederIntersectionTable 3 4 <= 18 /\
  (exists t' e', 0 <= t' <= 5 /\ 0 <= e' <= 5 /\
                 entry TetraederIntersectionTable t' e' = 18).
Proof.
  apply (TetraederIntersectionTable_ids 3 4 18); lia.
Defined.

(** The intersection identifier of an edge of a tetrahedron depends on
    the two cube corners the edge joins and on nothing else: two edges,
    of the same or of different tetrahedra, have the same entry in
    TetraederIntersectionTable exactly when they join the same two
    corners of TetraederDefinitionTable. *)
Theorem TetraederIntersectionTable_corner_pairs (t e t' e' : Z) :
  0 <= t <= 5 -> 0 <= e <= 5 -> 0 <= t' <= 5 -> 0 <= e' <= 5 ->
  (entry TetraederIntersectionTable t e =
   entry TetraederIntersectionTable t' e' <->
   same_pair (corner_pair t e) (corner_pair t' e')).
Proof.
  intros Ht He Ht' He'.
  rewrite <- same_zpairb_spec, <- Z.eqb_eq. apply eqb_iff.
  assert (all_entries 6 6 (fun t e =>
            all_entries 6 6 (fun t' e' =>
              Bool.eqb (entry TetraederIntersectionTable t e =?
                        entry TetraederIntersectionTable t' e')
                       (same_zpairb (corner_pair t e) (corner_pair t' e'))))
          = true) as Hall by (vm_compute; reflexivity).
  apply all_entries_spec with (i := t) (j := e) in Hall; [|lia|lia].
  apply all_entries_spec with (i := t') (j := e') in Hall; [|lia|lia].
  exact Hall.
Qed.

Lemma TetraederIntersectionTable_corner_pairs_witness :
  entry TetraederIntersectionTable 1 5 =
  entry TetraederIntersectionTable 4 3 <->
  same_pair (corner_pair 1 5) (corner_pair 4 3).
Proof.
  apply (TetraederIntersectionTable_corner_pairs 1 5 4 3); lia.
Defined.

(** TetraederNeighborTable and TetraederVertexNBTable are filled in the
    same places: an entry of one is -1 exactly when the entry of the other
    at the same row and column is; the entries of TetraederVertexNBTable
    are -1 or intersection identifiers in 0..17, and no entry of
    TetraederNeighborTable is 13. *)
Theorem neighbour_tables_shape (i j : Z) :
  0 <= i <= 18 -> 0 <= j <= 2 ->
  (entry TetraederNeighborTable i j = -1 <->
   entry TetraederVertexNBTable i j = -1) /\
  (entry TetraederVertexNBTable i j = -1 \/
   0 <= entry TetraederVertexNBTable i j <= 17) /\
  entry TetraederNeighborTable i j <> 13.
Proof.
  intros Hi Hj.
  assert (all_entries 19 3 (fun i j =>
            Bool.eqb (entry TetraederNeighborTable i j =? -1)
                     (entry TetraederVertexNBTable i j =? -1) &&
            ((entry TetraederVertexNBTable i j =? -1) ||
             ((0 <=? entry TetraederVertexNBTable i j) &&
              (entry TetraederVertexNBTable i j <=? 17))) &&
            negb (entry TetraederNeighborTable i j =? 13)) = true) as Hall
    by (vm_compute; reflexivity).
  apply all_entries_spec with (i := i) (j := j) in Hall; [|lia|lia].
  rewrite !andb_true_iff in Hall. destruct Hall as [[Hsame Hrange] Hself].
  split; [|split].
  - rewrite <- !Z.eqb_eq. apply eqb_iff, Hsame.
  - apply orb_true_iff in Hrange. destruct Hrange as [H|H].
    + left. apply Z.eqb_eq, H.
    + right. apply andb_true_iff in H. rewrite !Z.leb_le in H. exact H.
  - apply Z.eqb_neq, negb_true_iff, Hself.
Qed.

Lemma neighbour_tables_shape_witness :
  (entry TetraederNeighborTable 13 1 = -1 <->
   entry TetraederVertexNBTable 13 1 = -1) /\
  (entry TetraederVertexNBTable 13 1 = -1 \/
   0 <= entry TetraederVertexNBTable 13 1 <= 17) /\
  entry TetraederNeighborTable 13 1 <> 13.
Proof.
  apply (neighbour_tables_shape 13 1); lia.
Defined.

(** Looking a neighbour up and looking back returns to the start: if the
    tables list for intersection i the cell n and, in that cell, the
    intersection i', then they list for i' the opposite cell 26 - n and,
    in it, the intersection i. *)
Theorem neighbour_tables_round_trip (i j : Z) :
  0 <= i <= 18 -> 0 <= j <= 2 ->
  0 <= entry TetraederNeighborTable i j ->
  exists j', 0 <= j' <= 2 /\
    neighbour_at (entry TetraederVertexNBTable i j) j' =
    (26 - entry TetraederNeighborTable i j, i).
Proof.
  intros Hi Hj Hn.
  assert (all_entries 19 3 (fun i j =>
            (entry TetraederNeighborTable i j <? 0) ||
            existsb (fun j' =>
                       zpair_eqb
                         (neighbour_at (entry TetraederVertexNBTable i j) j')
                         (26 - entry TetraederNeighborTable i j, i))
                    (indices 3)) = true) as Hall
    by (vm_compute; reflexivity).
  apply all_entries_spec with (i := i) (j := j) in Hall; [|lia|lia].
  apply orb_true_iff in Hall. destruct Hall as [H|H].
  - apply Z.ltb_lt in H. lia.
  - apply existsb_indices in H. destruct H as (j' & Hj' & H).
    exists j'. split; [lia | apply zpair_eqb_spec, H].
Qed.

Lemma neighbour_tables_round_trip_witness :
  exists j', 0 <= j' <= 2 /\
    neighbour_at (entry TetraederVertexNBTable 9 1) j' =
    (26 - entry TetraederNeighborTable 9 1, 9).
Proof.
  apply (neighbour_tables_round_trip 9 1); [lia | lia | vm_compute; discriminate].
Defined.

(** *** The tables in space *)

(** [lattice_corner] is [Cube.box_corner] with integer coordinates. *)
Lemma box_corner_lattice (i : Z) :
  Cube.box_corner i =
  (IZR (fst (fst (lattice_corner i))), IZR (snd (fst (lattice_corner i))),
   IZR (snd (lattice_corner i))).
Proof.
  destruct i as [|q|q]; try reflexivity.
  do 4 (try destruct q as [q|q|]; try reflexivity).
Qed.

Lemma point_eqb_spec (p q : Z * Z * Z) : point_eqb p q = true <-> p = q.
Proof.
  destruct p as [[x y] z], q as [[x' y'] z']. unfold point_eqb.
  rewrite !andb_true_iff, !Z.eqb_eq. split.
  - intros [[-> ->] ->]. reflexivity.
  - intros H. injection H as -> -> ->. auto.
Qed.

Lemma coincideb_spec (t e t' e' n : Z) :
  coincideb t e t' e' n = true <-> coincide t e t' e' n.
Proof.
  unfold coincideb, coincide, same_pair.
  destruct (edge_points (0, 0, 0) t e) as [p1 p2].
  destruct (edge_points (cell_offset n) t' e') as [q1 q2]. simpl.
  rewrite orb_true_iff, !andb_true_iff, !point_eqb_spec. split.
  - intros [[-> ->] | [-> ->]]; auto.
  - intros [H | H]; injection H as -> ->; auto.
Qed.

Lemma listedb_spec (i n i' : Z) :
  listedb i n i' = true <->
  exists j, 0 <= j <= 2 /\ neighbour_at i j = (n, i').
Proof.
  unfold listedb. rewrite existsb_indices.
  split; intros (j & Hj & H); exists j;
    (split; [lia | apply zpair_eqb_spec, H]).
Qed.

(** The two neighbour tables list the coinciding edges, all of them and
    no others: with the cube corners placed as in the cell and the 27
    cells numbered 9 (dx + 1) + 3 (dy + 1) + (dz + 1), an edge of a
    tetrahedron of this cell is the same segment as an edge of a
    tetrahedron of the neighbouring cell n exactly when, at the
    intersection identifier of the first, the tables list the cell n with
    the intersection identifier of the second. *)
Theorem neighbour_tables_exact (t e t' e' n : Z) :
  0 <= t <= 5 -> 0 <= e <= 5 -> 0 <= t' <= 5 -> 0 <= e' <= 5 ->
  0 <= n <= 26 -> n <> 13 ->
  (coincide t e t' e' n <->
   exists j, 0 <= j <= 2 /\
     neighbour_at (entry TetraederIntersectionTable t e) j =
     (n, entry TetraederIntersectionTable t' e')).
Proof.
  intros Ht He Ht' He' Hn Hself.
  rewrite <- coincideb_spec, <- listedb_spec. apply eqb_iff.
  assert (all_entries 6 6 (fun t e =>
            all_entries 6 6 (fun t' e' =>
              forallb (fun n =>
                (n =? 13) ||
                Bool.eqb (coincideb t e t' e' n)
                         (listedb (entry TetraederIntersectionTable t e) n
                                  (entry TetraederIntersectionTable t' e')))
                (indices 27))) = true) as Hall
    by (vm_compute; reflexivity).
  apply all_entries_spec with (i := t) (j := e) in Hall; [|lia|lia].
  apply all_entries_spec with (i := t') (j := e') in Hall; [|lia|lia].
  apply (forallb_indices _ 27) with (i := n) in Hall; [|lia].
  apply orb_true_iff in Hall. destruct Hall as [H | H]; [|exact H].
  apply Z.eqb_eq in H. contradiction.
Qed.

Lemma neighbour_tables_exact_witness :
  coincide 0 1 5 2 10 <->
  exists j, 0 <= j <= 2 /\
    neighbour_at (entry TetraederIntersectionTable 0 1) j =
    (10, entry TetraederIntersectionTable 5 2).
Proof.
  apply (neighbour_tables_exact 0 1 5 2 10); lia.
Defined.

(** The identifiers sort the edges by their kind: an edge of a
    tetrahedron that runs along an edge of the cube has an identifier in
    0..11 and three neighbours listed, one that crosses a face of the cube
    an identifier in 12..17 and one neighbour, and the one that crosses
    the cube has identifier 18 and none. *)
Theorem intersection_edge_kinds (t e : Z) :
  0 <= t <= 5 -> 0 <= e <= 5 ->
  let i := entry TetraederIntersectionTable t e in
  let k := differing (fst (edge_points (0, 0, 0) t e))
                     (snd (edge_points (0, 0, 0) t e)) in
  let listed := length (neighbours TetraederNeighborTable i) in
  (k = 1 /\ 0 <= i <= 11 /\ listed = 3%nat) \/
  (k = 2 /\ 12 <= i <= 17 /\ listed = 1%nat) \/
  (k = 3 /\ i = 18 /\ listed = 0%nat).
Proof.
  intros Ht He.
  assert (t = 0 \/ t = 1 \/ t = 2 \/ t = 3 \/ t = 4 \/ t = 5) as Ct by lia.
  assert (e = 0 \/ e = 1 \/ e = 2 \/ e = 3 \/ e = 4 \/ e = 5) as Ce by lia.
  repeat (destruct Ct as [-> | Ct]); try subst t.
  all: repeat (destruct Ce as [-> | Ce]); try subst e.
  all: vm_compute.
  all: first [ left; repeat split; (reflexivity || discriminate)
             | right; left; repeat split; (reflexivity || discriminate)
             | right; right; repeat split; reflexivity ].
Qed.

Lemma intersection_edge_kinds_witness :
  let i := entry TetraederIntersectionTable 2 1 in
  let k := differing (fst (edge_points (0, 0, 0) 2 1))
                     (snd (edge_points (0, 0, 0) 2 1)) in
  let listed := length (neighbours TetraederNeighborTable i) in
  (k = 1 /\ 0 <= i <= 11 /\ listed = 3%nat) \/
  (k = 2 /\ 12 <= i <= 17 /\ listed = 1%nat) \/
  (k = 3 /\ i = 18 /\ listed = 0%nat).
Proof.
  apply (intersection_edge_kinds 2 1); lia.
Defined.

(** The tetrahedra are glued face to face: a triangular face of a
    tetrahedron belongs to that tetrahedron alone when its three corners
    lie in one face of the cube, and to exactly one more tetrahedron
    otherwise. *)
Theorem tetrahedra_faces (t : Z) (f : list Z) :
  0 <= t <= 5 -> In f (faces t) ->
  (length (tetrahedra_with f) = 1%nat /\ on_cube_faceb f = true) \/
  (length (tetrahedra_with f) = 2%nat /\ on_cube_faceb f = false).
Proof.
  intros Ht Hf.
  assert (t = 0 \/ t = 1 \/ t = 2 \/ t = 3 \/ t = 4 \/ t = 5) as Ct by lia.
  repeat (destruct Ct as [-> | Ct]); try subst t.
  all: cbv [faces row nth Z.to_nat Pos.to_nat Pos.iter_op Nat.add
            TetraederDefinitionTable In] in Hf.
  all: repeat (destruct Hf as [<- | Hf];
               [vm_compute; first [left; split; reflexivity
                                  | right; split; reflexivity]|]).
  all: destruct Hf.
Qed.

Lemma tetrahedra_faces_witness :
  (length (tetrahedra_with [4; 2; 7]) = 1%nat /\
   on_cube_faceb [4; 2; 7] = true) \/
  (length (tetrahedra_with [4; 2; 7]) = 2%nat /\
   on_cube_faceb [4; 2; 7] = false).
Proof.
  apply (tetrahedra_faces 4 [4; 2; 7]); [lia|].
  vm_compute. right. left. reflexivity.
Defined.

(** Every row of TetraederDefinitionTable names four different corners
    of the cube, every corner 0..7 belongs to some tetrahedron, and the
    six tetrahedra are listed in the same orientation. *)
Theorem TetraederDefinitionTable_rows (t k k' v : Z) :
  0 <= t <= 5 -> 0 <= k <= 3 -> 0 <= k' <= 3 -> 0 <= v <= 7 ->
  0 <= entry TetraederDefinitionTable t k <= 7 /\
  (entry TetraederDefinitionTable t k = entry TetraederDefinitionTable t k' ->
   k = k') /\
  (exists t' j, 0 <= t' <= 5 /\ 0 <= j <= 3 /\
                entry TetraederDefinitionTable t' j = v) /\
  orientation t = 1.
Proof.
  intros Ht Hk Hk' Hv. split; [|split; [|split]].
  - assert (all_entries 6 4 (fun t k =>
              (0 <=? entry TetraederDefinitionTable t k) &&
              (entry TetraederDefinitionTable t k <=? 7)) = true) as Hall
      by (vm_compute; reflexivity).
    apply all_entries_spec with (i := t) (j := k) in Hall; [|lia|lia].
    apply andb_true_iff in Hall. rewrite !Z.leb_le in Hall. exact Hall.
  - assert (all_entries 6 4 (fun t k =>
              forallb (fun k' =>
                negb (entry TetraederDefinitionTable t k =?
                      entry TetraederDefinitionTable t k') || (k =? k'))
                (indices 4)) = true) as Hall
      by (vm_compute; reflexivity).
    apply all_entries_spec with (i := t) (j := k) in Hall; [|lia|lia].
    apply (forallb_indices _ 4) with (i := k') in Hall; [|lia].
    intros E. apply orb_true_iff in Hall. destruct Hall as [H | H].
    + apply negb_true_iff, Z.eqb_neq in H. contradiction.
    + apply Z.eqb_eq, H.
  - assert (forallb (fun v =>
              existsb (fun t' =>
                existsb (fun j => entry TetraederDefinitionTable t' j =? v)
                        (indices 4)) (indices 6)) (indices 8) = true)
      as Hall by (vm_compute; reflexivity).
    apply (forallb_indices _ 8) with (i := v) in Hall; [|lia].
    apply existsb_indices in Hall. destruct Hall as (t' & Ht' & Hall).
    apply existsb_indices in Hall. destruct Hall as (j & Hj & Hall).
    exists t', j. apply Z.eqb_eq in Hall. repeat split; (lia || exact Hall).
  - apply Z.eqb_eq.
    apply (forallb_indices (fun t => orientation t =? 1) 6);
      [vm_compute; reflexivity | lia].
Qed.

Lemma TetraederDefinitionTable_rows_witness :
  0 <= entry TetraederDefinitionTable 2 1 <= 7 /\
  (entry TetraederDefinitionTable 2 1 = entry TetraederDefinitionTable 2 3 ->
   1 = 3) /\
  (exists t' j, 0 <= t' <= 5 /\ 0 <= j <= 3 /\
                entry TetraederDefinitionTable t' j = 6) /\
  orientation 2 = 1.
Proof.
  apply (TetraederDefinitionTable_rows 2 1 3 6); lia.
Defined.

(** The triangles are wound alike in every tetrahedron and every
    configuration: with its corners at the midpoints of the edges it
    refers to, a triangle of row c is seen counter-clockwise from each
    corner of the tetrahedron whose bit in c is clear and clockwise from
    each corner whose bit is set. *)
Theorem triangles_wound_alike (t c k : Z) (tri : list Z) :
  0 <= t <= 5 -> 0 <= c <= 15 -> 0 <= k <= 3 ->
  In tri (triangles (row TetraederTable c)) ->
  (bit c k = 0 -> 0 < side t tri k) /\
  (bit c k = 1 -> side t tri k < 0).
Proof.
  intros Ht Hc Hk Htri.
  assert (all_entries 6 16 (fun t c =>
            forallb (fun tri =>
              forallb (fun k => side t tri k =? 1 - 2 * bit c k) (indices 4))
              (triangles (row TetraederTable c))) = true) as Hall
    by (vm_compute; reflexivity).
  apply all_entries_spec with (i := t) (j := c) in Hall; [|lia|lia].
  rewrite forallb_forall in Hall. specialize (Hall tri Htri).
  apply (forallb_indices _ 4) with (i := k) in Hall; [|lia].
  apply Z.eqb_eq in Hall. lia.
Qed.

Lemma triangles_wound_alike_witness :
  (bit 6 2 = 0 -> 0 < side 3 [3; 1; 5] 2) /\
  (bit 6 2 = 1 -> side 3 [3; 1; 5] 2 < 0).
Proof.
  apply (triangles_wound_alike 3 6 2 [3; 1; 5]); [lia | lia | lia |].
  vm_compute. right. left. reflexivity.
Defined.

End CellFacts.
